(** * Eloipool: the transaction codec of bitcoin/txn.py

    A shallow embedding of class [Txn] (raw transaction bytes, the decoded
    fields, the cached identity hash) and of the helpers it calls, followed
    by the properties of the codec. *)

From Stdlib Require Import ZArith NArith List Lia Bool.
From Stdlib Require Import Init.Byte Strings.Byte.
Import ListNotations.
Open Scope Z_scope.

(** ** Python values *)

Definition bytes := list byte.

Definition byte_to_Z (b : byte) : Z := Z.of_N (Byte.to_N b).

Definition byte_of_Z (z : Z) : byte :=
  match Byte.of_N (Z.to_N (z mod 256)) with
  | Some b => b
  | None => x00
  end.

(** The exceptions the codec can raise. *)
Inductive exn : Set :=
| AttributeError   (* an attribute of the object that was never assigned *)
| IndexError       (* b[0] on an empty bytes object *)
| struct_error     (* struct.pack / struct.unpack: wrong length or range *)
| AssertionError.  (* a failed assert statement *)

Inductive result (A : Type) : Type :=
| Ok (a : A)
| Raise (e : exn).
Arguments Ok {A} a.
Arguments Raise {A} e.

Declare Scope result_scope.
Delimit Scope result_scope with result.

Definition rbind {A B} (r : result A) (k : A -> result B) : result B :=
  match r with
  | Ok a => k a
  | Raise e => Raise e
  end.

Notation "x <- c ;; k" := (rbind c (fun x => k))
  (at level 61, c at next level, right associativity) : result_scope.
Notation "' p <- c ;; k" := (rbind c (fun x => match x with p => k end))
  (at level 61, p pattern, c at next level, right associativity) : result_scope.

(** Slices with non-negative bounds: [data[:n]], [data[n:]], [data[a:b]].
    Every index the codec uses is a constant or a decoded unsigned number. *)
Definition upto {A} (n : Z) (l : list A) : list A := firstn (Z.to_nat n) l.
Definition from {A} (n : Z) (l : list A) : list A := skipn (Z.to_nat n) l.
Definition slice {A} (a b : Z) (l : list A) : list A := upto (b - a) (from a l).

(** ** struct.pack and struct.unpack, little-endian formats *)

Inductive fmt : Set := fmt_B | fmt_H | fmt_L | fmt_Q.

Definition width (f : fmt) : nat :=
  match f with
  | fmt_B => 1
  | fmt_H => 2
  | fmt_L => 4
  | fmt_Q => 8
  end%nat.

Fixpoint le_bytes (k : nat) (z : Z) : bytes :=
  match k with
  | O => []
  | S k' => byte_of_Z z :: le_bytes k' (z / 256)
  end.

Fixpoint le_value (bs : bytes) : Z :=
  match bs with
  | [] => 0
  | b :: r => byte_to_Z b + 256 * le_value r
  end.

Definition in_range (f : fmt) (v : Z) : bool :=
  (0 <=? v) && (v <? 2 ^ (8 * Z.of_nat (width f))).

(** [pack('<L', v)]: struct.error when [v] does not fit the format. *)
Definition pack (f : fmt) (v : Z) : result bytes :=
  if in_range f v then Ok (le_bytes (width f) v) else Raise struct_error.

(** [unpack('<L', bs)[0]]: struct.error unless [bs] has the format's size. *)
Definition unpack (f : fmt) (bs : bytes) : result Z :=
  if Nat.eqb (length bs) (width f) then Ok (le_value bs) else Raise struct_error.

(** ** The variable-length integer codec *)

Open Scope result_scope.

(** Modelled from the spec: bitcoin/varlen.py is not among the sources. The
    spec's collaborator contract: [varlenDecode] decodes one CompactSize
    integer (1, 3, 5 or 9 bytes) from the front of the buffer, advances the
    position counter by the number of bytes consumed and returns the value
    with the unconsumed remainder; a read past the end of the buffer is an
    error. The counter, passed by reference in the source, is returned. *)
Definition varlenDecode (b : bytes) (rc : Z) : result (Z * bytes * Z) :=
  match b with
  | [] => Raise IndexError
  | b0 :: _ =>
      if byte_to_Z b0 =? 0xff then
        v <- unpack fmt_Q (slice 1 9 b) ;; Ok (v, from 9 b, rc + 9)
      else if byte_to_Z b0 =? 0xfe then
        v <- unpack fmt_L (slice 1 5 b) ;; Ok (v, from 5 b, rc + 5)
      else if byte_to_Z b0 =? 0xfd then
        v <- unpack fmt_H (slice 1 3 b) ;; Ok (v, from 3 b, rc + 3)
      else Ok (byte_to_Z b0, from 1 b, rc + 1)
  end.

(** Modelled from the spec: bitcoin/varlen.py is not among the sources. The
    inverse of [varlenDecode]: the minimal-length CompactSize encoding. *)
Definition varlenEncode (n : Z) : result bytes :=
  if n <? 0xfd then pack fmt_B n
  else if n <=? 0xffff then p <- pack fmt_H n ;; Ok (xfd :: p)
  else if n <=? 0xffffffff then p <- pack fmt_L n ;; Ok (xfe :: p)
  else p <- pack fmt_Q n ;; Ok (xff :: p).

Close Scope result_scope.

(** ** The double-hash primitive *)

Module Sha256.
Local Open Scope N_scope.

Definition w32 (x : N) : N := N.land x 0xffffffff.
Definition add32 (x y : N) : N := w32 (x + y).
Definition rotr (n x : N) : N := N.lor (N.shiftr x n) (w32 (N.shiftl x (32 - n))).
Definition not32 (x : N) : N := N.lxor x 0xffffffff.

Definition Ch (x y z : N) : N := N.lxor (N.land x y) (N.land (not32 x) z).
Definition Maj (x y z : N) : N :=
  N.lxor (N.lxor (N.land x y) (N.land x z)) (N.land y z).
Definition Sigma0 (x : N) : N := N.lxor (N.lxor (rotr 2 x) (rotr 13 x)) (rotr 22 x).
Definition Sigma1 (x : N) : N := N.lxor (N.lxor (rotr 6 x) (rotr 11 x)) (rotr 25 x).
Definition sigma0 (x : N) : N := N.lxor (N.lxor (rotr 7 x) (rotr 18 x)) (N.shiftr x 3).
Definition sigma1 (x : N) : N := N.lxor (N.lxor (rotr 17 x) (rotr 19 x)) (N.shiftr x 10).

Definition K : list N :=
  [ 0x428A2F98; 0x71374491; 0xB5C0FBCF; 0xE9B5DBA5; 0x3956C25B; 0x59F111F1; 0x923F82A4; 0xAB1C5ED5;
    0xD807AA98; 0x12835B01; 0x243185BE; 0x550C7DC3; 0x72BE5D74; 0x80DEB1FE; 0x9BDC06A7; 0xC19BF174;
    0xE49B69C1; 0xEFBE4786; 0x0FC19DC6; 0x240CA1CC; 0x2DE92C6F; 0x4A7484AA; 0x5CB0A9DC; 0x76F988DA;
    0x983E5152; 0xA831C66D; 0xB00327C8; 0xBF597FC7; 0xC6E00BF3; 0xD5A79147; 0x06CA6351; 0x14292967;
    0x27B70A85; 0x2E1B2138; 0x4D2C6DFC; 0x53380D13; 0x650A7354; 0x766A0ABB; 0x81C2C92E; 0x92722C85;
    0xA2BFE8A1; 0xA81A664B; 0xC24B8B70; 0xC76C51A3; 0xD192E819; 0xD6990624; 0xF40E3585; 0x106AA070;
    0x19A4C116; 0x1E376C08; 0x2748774C; 0x34B0BCB5; 0x391C0CB3; 0x4ED8AA4A; 0x5B9CCA4F; 0x682E6FF3;
    0x748F82EE; 0x78A5636F; 0x84C87814; 0x8CC70208; 0x90BEFFFA; 0xA4506CEB; 0xBEF9A3F7; 0xC67178F2 ].

Definition H0 : list N :=
  [ 0x6A09E667; 0xBB67AE85; 0x3C6EF372; 0xA54FF53A;
    0x510E527F; 0x9B05688C; 0x1F83D9AB; 0x5BE0CD19 ].

(** Big-endian words and bytes. *)
Fixpoint be_value (bs : list N) (acc : N) : N :=
  match bs with
  | [] => acc
  | b :: r => be_value r (acc * 256 + b)
  end.

Fixpoint be_bytes (k : nat) (x : N) : list N :=
  match k with
  | O => []
  | S k' => be_bytes k' (x / 256) ++ [x mod 256]
  end.

Fixpoint chunks (n : nat) (size : nat) (l : list N) : list (list N) :=
  match n with
  | O => []
  | S n' => firstn size l :: chunks n' size (skipn size l)
  end.

Definition pad (msg : list N) : list N :=
  let len := N.of_nat (length msg) in
  let zeros := N.to_nat ((55 + 64 - len mod 64) mod 64) in
  msg ++ [0x80] ++ repeat 0 zeros ++ be_bytes 8 (8 * len).

(** The message schedule: 16 block words extended to 64. *)
Fixpoint schedule (k : nat) (w : list N) : list N :=
  match k with
  | O => w
  | S k' =>
      let t := length w in
      let wt := add32 (add32 (sigma1 (nth (t - 2) w 0)) (nth (t - 7) w 0))
                      (add32 (sigma0 (nth (t - 15) w 0)) (nth (t - 16) w 0)) in
      schedule k' (w ++ [wt])
  end.

Definition round (s : list N) (kw : N * N) : list N :=
  match s with
  | [a; b; c; d; e; f; g; h] =>
      let t1 := add32 (add32 (add32 h (Sigma1 e)) (add32 (Ch e f g) (fst kw))) (snd kw) in
      let t2 := add32 (Sigma0 a) (Maj a b c) in
      [add32 t1 t2; a; b; c; add32 d t1; e; f; g]
  | _ => s
  end.

Definition compress (h : list N) (block : list N) : list N :=
  let w := schedule 48 (map (fun c => be_value c 0) (chunks 16 4 block)) in
  let s := fold_left round (combine K w) h in
  map (fun p => add32 (fst p) (snd p)) (combine h s).

Definition sha256 (msg : bytes) : bytes :=
  let m := pad (map Byte.to_N msg) in
  let h := fold_left compress (chunks (length m / 64) 64 m) H0 in
  map (fun n => byte_of_Z (Z.of_N n)) (flat_map (be_bytes 4) h).
End Sha256.

(** Modelled from the spec: util.dblsha is not among the sources. The
    double-hash primitive is a fixed-output cryptographic hash applied twice
    (hash of the hash); the digests the tests of txn.py expect are those of
    SHA-256, which [dblsha_test_digest] below checks. *)
Definition dblsha (b : bytes) : bytes := Sha256.sha256 (Sha256.sha256 b).

(** ** The transaction object *)

(** Inputs and outputs are the tuples of the source:
    [((prevout_hash, prevout_index), sigScript, seqno)] and
    [(amount, pkScript)]. *)
Definition prevout : Type := bytes * Z.
Definition txin : Type := prevout * bytes * Z.
Definition txout : Type := Z * bytes.

Definition _nullprev : bytes := repeat x00 32.

(** A Python sequence: [new] and [disassemble] store a list in
    [self.inputs], [setCoinbase] stores a tuple, which has no [append]. *)
Inductive pyseq (A : Type) : Type :=
| PyList (l : list A)
| PyTuple (l : list A).
Arguments PyList {A} l.
Arguments PyTuple {A} l.

Definition items {A} (s : pyseq A) : list A :=
  match s with
  | PyList l => l
  | PyTuple l => l
  end.

(** An instance of class [Txn]. An attribute that was never assigned is
    [None]; reading it raises AttributeError. *)
Record Txn : Type := mkTxn {
  data : option bytes;
  txid : option bytes;
  version : option Z;
  inputs : option (pyseq txin);
  outputs : option (list txout);
  locktime : option Z
}.

Definition no_attributes : Txn := mkTxn None None None None None None.

Definition with_data (d : bytes) (o : Txn) : Txn :=
  mkTxn (Some d) (txid o) (version o) (inputs o) (outputs o) (locktime o).
Definition with_txid (h : bytes) (o : Txn) : Txn :=
  mkTxn (data o) (Some h) (version o) (inputs o) (outputs o) (locktime o).
Definition with_version (v : Z) (o : Txn) : Txn :=
  mkTxn (data o) (txid o) (Some v) (inputs o) (outputs o) (locktime o).
Definition with_inputs (i : pyseq txin) (o : Txn) : Txn :=
  mkTxn (data o) (txid o) (version o) (Some i) (outputs o) (locktime o).
Definition with_outputs (u : list txout) (o : Txn) : Txn :=
  mkTxn (data o) (txid o) (version o) (inputs o) (Some u) (locktime o).
Definition with_locktime (l : Z) (o : Txn) : Txn :=
  mkTxn (data o) (txid o) (version o) (inputs o) (outputs o) (Some l).

(** Methods run on the object: they take [self], and give back [self] as
    they left it together with the value returned or the exception raised. *)
Definition method (A : Type) : Type := Txn -> Txn * result A.

Declare Scope method_scope.
Delimit Scope method_scope with method.

Definition ret {A} (a : A) : method A := fun self => (self, Ok a).
Definition raise {A} (e : exn) : method A := fun self => (self, Raise e).
Definition bind {A B} (m : method A) (k : A -> method B) : method B :=
  fun self =>
    match m self with
    | (self', Ok a) => k a self'
    | (self', Raise e) => (self', Raise e)
    end.
Definition lift {A} (r : result A) : method A := fun self => (self, r).

(** [self.attr] and [self.attr = v]. *)
Definition getattr {A} (attr : Txn -> option A) : method A :=
  fun self =>
    match attr self with
    | Some a => (self, Ok a)
    | None => (self, Raise AttributeError)
    end.
Definition setattr {A} (upd : A -> Txn -> Txn) (a : A) : method unit :=
  fun self => (upd a self, Ok tt).

Definition assert (b : bool) : method unit :=
  if b then ret tt else raise AssertionError.

Notation "x <- c ;; k" := (bind c (fun x => k))
  (at level 61, c at next level, right associativity) : method_scope.
Notation "' p <- c ;; k" := (bind c (fun x => match x with p => k end))
  (at level 61, p pattern, c at next level, right associativity) : method_scope.
Notation "c ;; k" := (bind c (fun _ => k))
  (at level 61, right associativity) : method_scope.

Definition bytes_eqb (a b : bytes) : bool :=
  if list_eq_dec Byte.byte_eq_dec a b then true else false.

Definition prevout_eqb (p q : prevout) : bool :=
  bytes_eqb (fst p) (fst q) && (snd p =? snd q).

(** The body of the input loop of [disassemble] (lines 66-82): [n] inputs
    still to read from [data], position counter [rc], inputs read so far. *)
Fixpoint read_inputs (n : nat) (data : bytes) (rc : Z) (inputs : list txin)
  : result (list txin * bytes * Z) :=
  match n with
  | O => Ok (inputs, data, rc)
  | S n' =>
      (index <- unpack fmt_L (slice 32 36 data) ;;
       let prevout := (upto 32 data, index) in
       let rc := rc + 36 in
       '(sigScriptLen, data, rc) <- varlenDecode (from 36 data) rc ;;
       let sigScript := upto sigScriptLen data in
       seqno <- unpack fmt_L (slice sigScriptLen (sigScriptLen + 4) data) ;;
       let data := from (sigScriptLen + 4) data in
       let rc := rc + (sigScriptLen + 4) in
       read_inputs n' data rc (inputs ++ [(prevout, sigScript, seqno)]))%result
  end.

(** The body of the output loop of [disassemble] (lines 87-95). *)
Fixpoint read_outputs (n : nat) (data : bytes) (rc : Z) (outputs : list txout)
  : result (list txout * bytes * Z) :=
  match n with
  | O => Ok (outputs, data, rc)
  | S n' =>
      (amount <- unpack fmt_Q (upto 8 data) ;;
       let rc := rc + 8 in
       '(pkScriptLen, data, rc) <- varlenDecode (from 8 data) rc ;;
       let pkScript := upto pkScriptLen data in
       let data := from pkScriptLen data in
       let rc := rc + pkScriptLen in
       read_outputs n' data rc (outputs ++ [(amount, pkScript)]))%result
  end.

(** The input loop of [assemble] (lines 125-128). *)
Fixpoint write_inputs (inputs : list txin) (data : bytes) : result bytes :=
  match inputs with
  | [] => Ok data
  | (prevout, sigScript, seqno) :: rest =>
      (index <- pack fmt_L (snd prevout) ;;
       let data := data ++ (fst prevout ++ index) in
       len <- varlenEncode (Z.of_nat (length sigScript)) ;;
       let data := data ++ (len ++ sigScript) in
       seq <- pack fmt_L seqno ;;
       let data := data ++ seq in
       write_inputs rest data)%result
  end.

(** The output loop of [assemble] (lines 132-134). *)
Fixpoint write_outputs (outputs : list txout) (data : bytes) : result bytes :=
  match outputs with
  | [] => Ok data
  | (amount, pkScript) :: rest =>
      (a <- pack fmt_Q amount ;;
       let data := data ++ a in
       len <- varlenEncode (Z.of_nat (length pkScript)) ;;
       let data := data ++ (len ++ pkScript) in
       write_outputs rest data)%result
  end.

Module TxnMethods.
Local Open Scope method_scope.

(** [idhash]: [self.txid = dblsha(self.data)]. *)
Definition idhash : method unit :=
  d <- getattr data ;;
  setattr with_txid (dblsha d).

(** [Txn(data)]; [data = None] is the default. A bytes object is true
    exactly when it is not empty. *)
Definition __init__ (d : option bytes) : method unit :=
  match d with
  | Some (b :: r) =>
      setattr with_data (b :: r) ;;
      idhash
  | _ => ret tt
  end.

(** The constructor call [Txn(data)]: a fresh object run through
    [__init__]. *)
Definition construct (d : option bytes) : Txn * result unit :=
  __init__ d no_attributes.

(** [Txn.new()]. *)
Definition new : Txn :=
  let o := fst (construct None) in
  let o := with_version 1 o in
  let o := with_inputs (PyList []) o in
  let o := with_outputs [] o in
  let o := with_locktime 0 o in
  o.

Definition addInput (p : prevout) (sigScript : bytes) (seqno : Z) : method unit :=
  i <- getattr inputs ;;
  match i with
  | PyList l => setattr with_inputs (PyList (l ++ [(p, sigScript, seqno)]))
  | PyTuple _ => raise AttributeError
  end.

Definition addOutput (amount : Z) (pkScript : bytes) : method unit :=
  u <- getattr outputs ;;
  setattr with_outputs (u ++ [(amount, pkScript)]).

(** [disassemble(retExtra)]: returns [None] by default and the bytes left
    after the transaction when [retExtra] is set. *)
Definition disassemble (retExtra : bool) : method (option bytes) :=
  d <- getattr data ;;
  v <- lift (unpack fmt_L (upto 4 d)) ;;
  setattr with_version v ;;
  let rc := 4 in
  d <- getattr data ;;
  '(inputCount, data_, rc) <- lift (varlenDecode (from 4 d) rc) ;;
  '(inputs_, data_, rc) <- lift (read_inputs (Z.to_nat inputCount) data_ rc []) ;;
  setattr with_inputs (PyList inputs_) ;;
  '(outputCount, data_, rc) <- lift (varlenDecode data_ rc) ;;
  '(outputs_, data_, rc) <- lift (read_outputs (Z.to_nat outputCount) data_ rc []) ;;
  setattr with_outputs outputs_ ;;
  l <- lift (unpack fmt_L (upto 4 data_)) ;;
  setattr with_locktime l ;;
  if negb retExtra then
    assert (Nat.eqb (length data_) 4) ;;
    ret None
  else
    d <- getattr data ;;
    assert (bytes_eqb data_ (from rc d)) ;;
    let data_ := from 4 data_ in
    let rc := rc + 4 in
    d <- getattr data ;;
    setattr with_data (upto rc d) ;;
    ret (Some data_).

Definition isCoinbase : method bool :=
  i <- getattr inputs ;;
  if Nat.eqb (length (items i)) 1 then
    match items i with
    | i0 :: _ => ret (prevout_eqb (fst (fst i0)) (_nullprev, 0xffffffff))
    | [] => raise IndexError
    end
  else ret false.

Definition getCoinbase : method bytes :=
  i <- getattr inputs ;;
  match items i with
  | i0 :: _ => ret (snd (fst i0))
  | [] => raise IndexError
  end.

Definition assemble : method unit :=
  v <- getattr version ;;
  data_ <- lift (pack fmt_L v) ;;
  inputs_ <- getattr inputs ;;
  n <- lift (varlenEncode (Z.of_nat (length (items inputs_)))) ;;
  let data_ := data_ ++ n in
  data_ <- lift (write_inputs (items inputs_) data_) ;;
  outputs_ <- getattr outputs ;;
  n <- lift (varlenEncode (Z.of_nat (length outputs_))) ;;
  let data_ := data_ ++ n in
  data_ <- lift (write_outputs outputs_ data_) ;;
  l <- getattr locktime ;;
  p <- lift (pack fmt_L l) ;;
  let data_ := data_ ++ p in
  setattr with_data data_ ;;
  idhash.

Section Coinbase.
(** [bitcoin.script.encodeUNum], which is not among the sources: the
    encoding of a block height that BIP 34 requires. *)
Variable encodeUNum : N -> bytes.

(** [setCoinbase(sigScript, seqno, height)]; [height = None] is the
    default. *)
Definition setCoinbase (sigScript : bytes) (seqno : Z) (height : option N)
  : method unit :=
  let sigScript :=
    match height with
    | Some h => encodeUNum h ++ sigScript
    | None => sigScript
    end in
  setattr with_inputs (PyTuple [((_nullprev, 0xffffffff), sigScript, seqno)]).
End Coinbase.
End TxnMethods.

(** ** The tests of txn.py, run on the model *)

Module Tests.
Import TxnMethods.
Local Open Scope method_scope.

Definition d : bytes := [x01; x00; x00; x00; x00; x00; x00; x00; x00; x00].
Definition INPUT : bytes := [x49; x4e; x50; x55; x54].
Definition OUTPUT : bytes := [x4f; x55; x54; x50; x55; x54].
Definition COINBASE : bytes := [x43; x4f; x49; x4e; x42; x41; x53; x45].

Definition digest1 : bytes :=
  [x43; xec; x7a; x57; x9f; x55; x61; xa4; x2a; x7e; x96; x37; xad; x41; x56; x67;
   x27; x35; xa6; x58; xbe; x27; x52; x18; x18; x01; xf7; x23; xba; x33; x16; xd2].
Definition digest2 : bytes :=
  [x3e; x60; x97; xec; x75; x8e; xb5; xef; x19; x6b; x17; x64; x96; x73; x77; xb1;
   xf1; x9b; x4f; x1c; x36; xa0; xbe; xf7; x4e; xed; x13; x6a; xfd; x48; x46; x1a].
Definition digest3 : bytes :=
  [x6e; xb9; xdc; xef; xe9; xdb; x28; x52; x8d; x43; x7e; x2d; xef; x7e; x88; x64;
   x15; x2b; x58; x13; x26; xb7; xbc; x24; xb1; x68; xf3; x67; x3d; x9b; x7e; x56].

(** Lines 147-153. *)
Definition run_raw : Txn * result bool :=
  (disassemble false ;; assemble ;; isCoinbase) (fst (construct (Some d))).

(** Lines 154-162. *)
Definition fields_built : Txn :=
  fst ((addInput (repeat x20 32, 0) INPUT 0xffffffff ;;
        addOutput 0x10000 OUTPUT) new).

Definition run_built : Txn * result unit := assemble fields_built.

(** The 71 bytes of that transaction. *)
Definition built : bytes :=
  Eval vm_compute in
    match data (fst run_built) with
    | Some b => b
    | None => []
    end.

Definition run_rebuilt : Txn * result bool :=
  (disassemble false ;; assemble ;; isCoinbase) (fst run_built).

(** Lines 163-169; [encodeUNum] is not called when no height is given. *)
Definition run_coinbase (encodeUNum : N -> bytes) : Txn * result (bool * bytes) :=
  (setCoinbase encodeUNum COINBASE 0xffffffff None ;;
   addOutput 0x10000 OUTPUT ;;
   c <- isCoinbase ;;
   s <- getCoinbase ;;
   assemble ;;
   ret (c, s)) new.

(** The transaction of lines 154-156 byte by byte, in the layout of the
    specification: version 1; one input (32 spaces, index 0, the 5-byte
    script INPUT, sequence ffffffff); one output (amount 0x10000, the
    6-byte script OUTPUT); locktime 0. *)
Definition tx71 : bytes :=
  [x01; x00; x00; x00;
   x01;
   x20; x20; x20; x20; x20; x20; x20; x20; x20; x20; x20; x20; x20; x20; x20; x20;
   x20; x20; x20; x20; x20; x20; x20; x20; x20; x20; x20; x20; x20; x20; x20; x20;
   x00; x00; x00; x00;
   x05; x49; x4e; x50; x55; x54;
   xff; xff; xff; xff;
   x01;
   x00; x00; x01; x00; x00; x00; x00; x00;
   x06; x4f; x55; x54; x50; x55; x54;
   x00; x00; x00; x00].


End Tests.

(** ** Definitions used in the statements and proofs *)

Import TxnMethods.

(** A 32-byte previous-output hash, as the wire format has it. *)
Definition hash32 (i : txin) : Prop := length (fst (fst (fst i))) = 32%nat.

(** The bytes [assemble] builds from the four fields. *)
Definition encode (v : Z) (ins : list txin) (outs : list txout) (l : Z)
  : result bytes :=
  (pv <- pack fmt_L v ;;
   nin <- varlenEncode (Z.of_nat (length ins)) ;;
   d <- write_inputs ins (pv ++ nin) ;;
   nout <- varlenEncode (Z.of_nat (length outs)) ;;
   d <- write_outputs outs (d ++ nout) ;;
   pl <- pack fmt_L l ;;
   Ok (d ++ pl))%result.

(** The exceptions of a read past the end of the buffer. *)
Definition short_read (e : exn) : Prop := e = struct_error \/ e = IndexError.

(** The reads of [disassemble] up to the locktime, without the assignments
    to the object: version, inputs, outputs, the bytes left and the position
    counter. *)
Definition parse (d : bytes) : result (Z * list txin * list txout * bytes * Z) :=
  (v <- unpack fmt_L (upto 4 d) ;;
   '(inputCount, data_, rc) <- varlenDecode (from 4 d) 4 ;;
   '(inputs_, data_, rc) <- read_inputs (Z.to_nat inputCount) data_ rc [] ;;
   '(outputCount, data_, rc) <- varlenDecode data_ rc ;;
   '(outputs_, data_, rc) <- read_outputs (Z.to_nat outputCount) data_ rc [] ;;
   Ok (v, inputs_, outputs_, data_, rc))%result.

(** What [disassemble] does once the reads of [parse] have succeeded
    (lines 83, 96 and 98-108). *)
Definition finish (retExtra : bool) (d : bytes) (t : Txn)
  (v : Z) (ins : list txin) (outs : list txout) (d4 : bytes) (rc : Z)
  : Txn * result (option bytes) :=
  let t3 := with_outputs outs (with_inputs (PyList ins) (with_version v t)) in
  match unpack fmt_L (upto 4 d4) with
  | Raise e => (t3, Raise e)
  | Ok l =>
      let t4 := with_locktime l t3 in
      if retExtra then
        if bytes_eqb d4 (from rc d)
        then (with_data (upto (rc + 4) d) t4, Ok (Some (from 4 d4)))
        else (t4, Raise AssertionError)
      else
        if Nat.eqb (length d4) 4 then (t4, Ok None)
        else (t4, Raise AssertionError)
  end.

(** A canonical byte sequence: the bytes [assemble] builds for some object
    whose inputs carry 32-byte previous-output hashes. *)
Definition canonical (B : bytes) : Prop :=
  exists t t' ins,
    inputs t = Some ins /\ Forall hash32 (items ins)
    /\ assemble t = (t', Ok tt) /\ data t' = Some B.

(** A buffer that holds one complete transaction and nothing more: the
    default [disassemble] accepts it. *)
Definition decodes (B : bytes) : Prop :=
  exists t t', data t = Some B /\ disassemble false t = (t', Ok None).

(** The cached hash is the double hash of the cached raw bytes, when the
    object has both. *)
Definition hash_current (t : Txn) : Prop :=
  forall d h, data t = Some d -> txid t = Some h -> h = dblsha d.

(** The fields of the object kept their values. *)
Definition fields_unchanged (t t' : Txn) : Prop :=
  version t' = version t /\ inputs t' = inputs t
  /\ outputs t' = outputs t /\ locktime t' = locktime t.

(** All four fields of the object hold a value. *)
Definition fields_assigned (t' : Txn) : Prop :=
  exists v ins outs l,
    version t' = Some v /\ inputs t' = Some ins
    /\ outputs t' = Some outs /\ locktime t' = Some l.

(** The reads of [disassemble] up to the assignment of [self.inputs]
    (lines 57-83): version, inputs, the bytes left and the position
    counter. *)
Definition read_to_inputs (d : bytes) : result (Z * list txin * bytes * Z) :=
  (v <- unpack fmt_L (upto 4 d) ;;
   '(inputCount, data_, rc) <- varlenDecode (from 4 d) 4 ;;
   '(inputs_, data_, rc) <- read_inputs (Z.to_nat inputCount) data_ rc [] ;;
   Ok (v, inputs_, data_, rc))%result.

(** An assert statement under an interpreter that checks assert statements
    ([asserts = true], the default) or compiles them away ([python -O]). *)
Definition assert_when (asserts : bool) (b : bool) : method unit :=
  if asserts then assert b else ret tt.

(** [disassemble] (lines 54-108) under either interpreter: the body of
    [TxnMethods.disassemble] with its two assert statements made to depend
    on [asserts]. *)
Definition disassemble_under (asserts retExtra : bool)
  : method (option bytes) :=
  (d <- getattr data ;;
   v <- lift (unpack fmt_L (upto 4 d)) ;;
   setattr with_version v ;;
   let rc := 4 in
   d <- getattr data ;;
   '(inputCount, data_, rc) <- lift (varlenDecode (from 4 d) rc) ;;
   '(inputs_, data_, rc) <- lift (read_inputs (Z.to_nat inputCount) data_ rc []) ;;
   setattr with_inputs (PyList inputs_) ;;
   '(outputCount, data_, rc) <- lift (varlenDecode data_ rc) ;;
   '(outputs_, data_, rc) <- lift (read_outputs (Z.to_nat outputCount) data_ rc []) ;;
   setattr with_outputs outputs_ ;;
   l <- lift (unpack fmt_L (upto 4 data_)) ;;
   setattr with_locktime l ;;
   if negb retExtra then
     assert_when asserts (Nat.eqb (length data_) 4) ;;
     ret None
   else
     d <- getattr data ;;
     assert_when asserts (bytes_eqb data_ (from rc d)) ;;
     let data_ := from 4 data_ in
     let rc := rc + 4 in
     d <- getattr data ;;
     setattr with_data (upto rc d) ;;
     ret (Some data_))%method.

(** An exception raised to report an error, as opposed to the failure of an
    assert statement. *)
Definition reported_error {A} (r : result A) : Prop :=
  exists e, r = Raise e /\ e <> AssertionError.



(** The ranges of the formats '<L' and '<Q'. *)
Definition u32 (z : Z) : Prop := 0 <= z < 2 ^ 32.
Definition u64 (z : Z) : Prop := 0 <= z < 2 ^ 64.

(** An input and an output whose numbers fit the formats [assemble] packs
    them with; the length of the previous-output hash is not among the
    conditions. *)
Definition packable_in (i : txin) : Prop :=
  u32 (snd (fst (fst i))) /\ u64 (Z.of_nat (length (snd (fst i))))
  /\ u32 (snd i).

Definition packable_out (o : txout) : Prop :=
  u64 (fst o) /\ u64 (Z.of_nat (length (snd o))).

Definition packable (v : Z) (ins : list txin) (outs : list txout) (l : Z)
  : Prop :=
  u32 v
  /\ u64 (Z.of_nat (length ins)) /\ Forall packable_in ins
  /\ u64 (Z.of_nat (length outs)) /\ Forall packable_out outs
  /\ u32 l.

(** The number of bytes of a variable-length integer. *)
Definition varlen_size (n : Z) : Z :=
  if n <? 0xfd then 1
  else if n <=? 0xffff then 3
  else if n <=? 0xffffffff then 5
  else 9.

(** The number of bytes [assemble] writes for one input, for one output and
    for a whole transaction. *)
Definition in_size (i : txin) : Z :=
  Z.of_nat (length (fst (fst (fst i)))) + 4
  + varlen_size (Z.of_nat (length (snd (fst i))))
  + Z.of_nat (length (snd (fst i))) + 4.

Definition out_size (o : txout) : Z :=
  8 + varlen_size (Z.of_nat (length (snd o))) + Z.of_nat (length (snd o)).

Definition total {A} (f : A -> Z) (l : list A) : Z :=
  fold_right (fun a s => f a + s) 0 l.

Definition tx_size (ins : list txin) (outs : list txout) : Z :=
  4 + varlen_size (Z.of_nat (length ins)) + total in_size ins
  + varlen_size (Z.of_nat (length outs)) + total out_size outs + 4.

(** *** The wire layout of the specification

    Written from section 6 of the specification and its CompactSize
    collaborator, not from [assemble]: little-endian fixed-width numbers,
    counts and script lengths as CompactSize integers of minimal length
    (1, 3, 5 or 9 bytes by magnitude). *)
Definition compact_size (n : Z) : bytes :=
  if n <? 0xfd then le_bytes 1 n
  else if n <=? 0xffff then xfd :: le_bytes 2 n
  else if n <=? 0xffffffff then xfe :: le_bytes 4 n
  else xff :: le_bytes 8 n.

(** prev-output hash (raw), prev-output index (4), script length, script
    bytes, sequence number (4). *)
Definition wire_input (i : txin) : bytes :=
  let '(h, index, script, seqno) := i in
  h ++ le_bytes 4 index
    ++ compact_size (Z.of_nat (length script)) ++ script
    ++ le_bytes 4 seqno.

(** amount (8), script length, script bytes. *)
Definition wire_output (o : txout) : bytes :=
  let '(amount, script) := o in
  le_bytes 8 amount ++ compact_size (Z.of_nat (length script)) ++ script.

(** version (4), input count, the inputs, output count, the outputs,
    locktime (4). *)
Definition wire (v : Z) (ins : list txin) (outs : list txout) (l : Z)
  : bytes :=
  le_bytes 4 v
    ++ compact_size (Z.of_nat (length ins)) ++ concat (map wire_input ins)
    ++ compact_size (Z.of_nat (length outs)) ++ concat (map wire_output outs)
    ++ le_bytes 4 l.

(** ** The tests of txn.py hold on the model *)

(** The digest line 149 expects. *)
Example dblsha_test_digest : dblsha Tests.d = Tests.digest1.
Proof. vm_compute. reflexivity. Qed.

(** Lines 147-153. *)
Example test_raw :
  txid (fst (construct (Some Tests.d))) = Some Tests.digest1
  /\ data (fst Tests.run_raw) = Some Tests.d
  /\ snd Tests.run_raw = Ok false.
Proof. vm_compute. repeat split. Qed.

(** Lines 154-162. *)
Example test_built :
  snd Tests.run_built = Ok tt
  /\ txid (fst Tests.run_built) = Some Tests.digest2
  /\ txid (fst Tests.run_rebuilt) = Some Tests.digest2
  /\ snd Tests.run_rebuilt = Ok false.
Proof. vm_compute. repeat split. Qed.

(** Lines 163-169. *)
Example test_coinbase (encodeUNum : N -> bytes) :
  snd (Tests.run_coinbase encodeUNum) = Ok (true, Tests.COINBASE)
  /\ txid (fst (Tests.run_coinbase encodeUNum)) = Some Tests.digest3.
Proof. vm_compute. repeat split. Qed.

(** The 71 bytes written out by hand are the layout of the specification
    for the fields of lines 154-156, and their double hash is the digest
    lines 158 and 161 expect. *)
Example tx71_wire :
  wire 1 [((repeat x20 32, 0), Tests.INPUT, 0xffffffff)]
    [(0x10000, Tests.OUTPUT)] 0
  = Tests.tx71.
Proof. vm_compute. reflexivity. Qed.

Example tx71_digest : dblsha Tests.tx71 = Tests.digest2.
Proof. vm_compute. reflexivity. Qed.

(** One step of a method body on a given object. *)
Ltac run :=
  cbn beta iota zeta delta
    [bind lift getattr setattr assert ret raise rbind negb
     data txid version inputs outputs locktime
     with_data with_txid with_version with_inputs with_outputs with_locktime].

(** ** Bytes and little-endian numbers *)

Lemma byte_to_Z_range (b : byte) : 0 <= byte_to_Z b < 256.
Proof.
  unfold byte_to_Z. pose proof (Byte.to_N_bounded b). lia.
Qed.

Lemma byte_of_to_Z (b : byte) : byte_of_Z (byte_to_Z b) = b.
Proof.
  unfold byte_of_Z. pose proof (byte_to_Z_range b).
  rewrite Z.mod_small by lia. unfold byte_to_Z.
  rewrite N2Z.id, Byte.of_to_N. reflexivity.
Qed.

Lemma byte_to_of_Z (z : Z) : byte_to_Z (byte_of_Z z) = z mod 256.
Proof.
  unfold byte_of_Z, byte_to_Z.
  pose proof (Z.mod_pos_bound z 256 ltac:(lia)).
  destruct (Byte.of_N (Z.to_N (z mod 256))) eqn:E.
  - apply Byte.to_of_N in E. rewrite E. lia.
  - apply Byte.of_N_None_iff in E. lia.
Qed.

Lemma length_le_bytes (k : nat) (z : Z) : length (le_bytes k z) = k.
Proof.
  revert z. induction k; intros; simpl; [reflexivity | now rewrite IHk].
Qed.

Lemma le_value_range (bs : bytes) :
  0 <= le_value bs < 2 ^ (8 * Z.of_nat (length bs)).
Proof.
  induction bs as [| b r IH].
  - simpl. lia.
  - cbn [le_value length]. pose proof (byte_to_Z_range b).
    replace (8 * Z.of_nat (S (length r))) with (8 + 8 * Z.of_nat (length r)) by lia.
    rewrite Z.pow_add_r by lia. change (2 ^ 8) with 256. lia.
Qed.

Lemma le_value_le_bytes (k : nat) (z : Z) :
  0 <= z < 2 ^ (8 * Z.of_nat k) -> le_value (le_bytes k z) = z.
Proof.
  revert z. induction k as [| k IH]; intros z Hz.
  - simpl in *. lia.
  - cbn [le_bytes le_value]. rewrite byte_to_of_Z.
    replace (8 * Z.of_nat (S k)) with (8 + 8 * Z.of_nat k) in Hz by lia.
    rewrite Z.pow_add_r in Hz by lia. change (2 ^ 8) with 256 in Hz.
    rewrite IH.
    + pose proof (Z.div_mod z 256 ltac:(lia)). lia.
    + split; [apply Z.div_pos; lia | apply Z.div_lt_upper_bound; lia].
Qed.

Lemma le_bytes_le_value (bs : bytes) : le_bytes (length bs) (le_value bs) = bs.
Proof.
  induction bs as [| b r IH]; [reflexivity |].
  cbn [length le_bytes le_value]. pose proof (byte_to_Z_range b).
  f_equal.
  - unfold byte_of_Z.
    replace ((byte_to_Z b + 256 * le_value r) mod 256) with (byte_to_Z b)
      by (apply Z.mod_unique with (q := le_value r); lia).
    unfold byte_to_Z. rewrite N2Z.id, Byte.of_to_N. reflexivity.
  - replace ((byte_to_Z b + 256 * le_value r) / 256) with (le_value r)
      by (apply Z.div_unique with (r := byte_to_Z b); lia).
    exact IH.
Qed.

(** ** Slices *)

Lemma upto_app_exact {A} (n : Z) (a b : list A) :
  Z.to_nat n = length a -> upto n (a ++ b) = a.
Proof.
  intros H. unfold upto. rewrite H, firstn_app, Nat.sub_diag, firstn_all.
  simpl. apply app_nil_r.
Qed.

Lemma from_app_exact {A} (n : Z) (a b : list A) :
  Z.to_nat n = length a -> from n (a ++ b) = b.
Proof.
  intros H. unfold from. rewrite H, skipn_app, Nat.sub_diag, skipn_all.
  reflexivity.
Qed.

Lemma upto_app_within {A} (n : Z) (l x : list A) :
  (Z.to_nat n <= length l)%nat -> upto n (l ++ x) = upto n l.
Proof.
  intros H. unfold upto. rewrite firstn_app.
  replace (Z.to_nat n - length l)%nat with 0%nat by lia.
  simpl. apply app_nil_r.
Qed.

Lemma from_app_within {A} (n : Z) (l x : list A) :
  (Z.to_nat n <= length l)%nat -> from n (l ++ x) = from n l ++ x.
Proof.
  intros H. unfold from. rewrite skipn_app.
  replace (Z.to_nat n - length l)%nat with 0%nat by lia.
  reflexivity.
Qed.

Lemma length_upto {A} (n : Z) (l : list A) :
  length (upto n l) = Nat.min (Z.to_nat n) (length l).
Proof. unfold upto. apply length_firstn. Qed.

Lemma length_from {A} (n : Z) (l : list A) :
  length (from n l) = (length l - Z.to_nat n)%nat.
Proof. unfold from. apply length_skipn. Qed.

Lemma from_from {A} (a b : Z) (l : list A) :
  0 <= a -> 0 <= b -> from b (from a l) = from (a + b) l.
Proof.
  intros Ha Hb. unfold from. rewrite skipn_skipn. f_equal. lia.
Qed.

Lemma upto_from_join {A} (n : Z) (l : list A) : upto n l ++ from n l = l.
Proof. unfold upto, from. apply firstn_skipn. Qed.

(** ** pack and unpack *)

Lemma pack_Ok (f : fmt) (v : Z) (p : bytes) :
  pack f v = Ok p ->
  p = le_bytes (width f) v /\ length p = width f /\ le_value p = v
  /\ 0 <= v < 2 ^ (8 * Z.of_nat (width f)).
Proof.
  unfold pack, in_range. destruct (0 <=? v) eqn:E1; [| discriminate].
  destruct (v <? 2 ^ (8 * Z.of_nat (width f))) eqn:E2; [| discriminate].
  simpl. intros H. injection H as <-.
  apply Z.leb_le in E1. apply Z.ltb_lt in E2.
  rewrite length_le_bytes, le_value_le_bytes by (split; assumption).
  repeat split; assumption.
Qed.

Lemma pack_in_range (f : fmt) (v : Z) :
  0 <= v < 2 ^ (8 * Z.of_nat (width f)) -> pack f v = Ok (le_bytes (width f) v).
Proof.
  intros [H1 H2]. unfold pack, in_range.
  apply Z.leb_le in H1. apply Z.ltb_lt in H2. now rewrite H1, H2.
Qed.

Lemma unpack_Ok (f : fmt) (bs : bytes) (v : Z) :
  unpack f bs = Ok v <-> length bs = width f /\ v = le_value bs.
Proof.
  unfold unpack. destruct (Nat.eqb (length bs) (width f)) eqn:E.
  - apply Nat.eqb_eq in E. split.
    + intros H. injection H as <-. auto.
    + intros [_ ->]. reflexivity.
  - apply Nat.eqb_neq in E. split; [discriminate | tauto].
Qed.

Lemma unpack_exact (f : fmt) (bs : bytes) :
  length bs = width f -> unpack f bs = Ok (le_value bs).
Proof. intros H. apply unpack_Ok. auto. Qed.

Lemma unpack_Raise (f : fmt) (bs : bytes) (e : exn) :
  unpack f bs = Raise e -> e = struct_error /\ length bs <> width f.
Proof.
  unfold unpack. destruct (Nat.eqb (length bs) (width f)) eqn:E; [discriminate |].
  apply Nat.eqb_neq in E. intros H. injection H as <-. auto.
Qed.

Lemma unpack_pack (f : fmt) (v : Z) (p : bytes) :
  pack f v = Ok p -> unpack f p = Ok v.
Proof.
  intros H. apply pack_Ok in H as (_ & Hl & Hv & _).
  apply unpack_Ok. auto.
Qed.

(** ** The variable-length integers *)

Lemma varlenDecode_tagged (t : byte) (f : fmt) (p rest : bytes) (rc : Z) :
  (t = xfd /\ f = fmt_H) \/ (t = xfe /\ f = fmt_L) \/ (t = xff /\ f = fmt_Q) ->
  length p = width f ->
  varlenDecode (t :: p ++ rest) rc
  = Ok (le_value p, rest, rc + 1 + Z.of_nat (width f)).
Proof.
  intros Ht Hp.
  assert (Hs : forall k, Z.to_nat k = width f ->
                    slice 1 (1 + k) (t :: p ++ rest) = p
                    /\ from (1 + k) (t :: p ++ rest) = rest).
  { intros k Hk. unfold slice.
    assert (1 <= width f)%nat by (destruct f; simpl; lia).
    replace (1 + k - 1) with k by lia.
    replace (from 1 (t :: p ++ rest)) with (p ++ rest) by reflexivity.
    split; [apply upto_app_exact; lia |].
    unfold from. replace (Z.to_nat (1 + k)) with (S (length p)) by lia.
    simpl. rewrite skipn_app, Nat.sub_diag, skipn_all. reflexivity. }
  destruct Ht as [[-> ->] | [[-> ->] | [-> ->]]]; unfold varlenDecode.
  - change (byte_to_Z xfd =? 0xff) with false.
    change (byte_to_Z xfd =? 0xfe) with false.
    change (byte_to_Z xfd =? 0xfd) with true. cbv iota.
    destruct (Hs 2 eq_refl) as [H1 H2].
    change (1 + 2) with 3 in H1, H2. rewrite H1, H2.
    rewrite unpack_exact by assumption. simpl. do 2 f_equal. lia.
  - change (byte_to_Z xfe =? 0xff) with false.
    change (byte_to_Z xfe =? 0xfe) with true. cbv iota.
    destruct (Hs 4 eq_refl) as [H1 H2].
    change (1 + 4) with 5 in H1, H2. rewrite H1, H2.
    rewrite unpack_exact by assumption. simpl. do 2 f_equal. lia.
  - change (byte_to_Z xff =? 0xff) with true. cbv iota.
    destruct (Hs 8 eq_refl) as [H1 H2].
    change (1 + 8) with 9 in H1, H2. rewrite H1, H2.
    rewrite unpack_exact by assumption. simpl. do 2 f_equal. lia.
Qed.

Lemma varlenDecode_encode (n : Z) (e rest : bytes) (rc : Z) :
  varlenEncode n = Ok e ->
  varlenDecode (e ++ rest) rc = Ok (n, rest, rc + Z.of_nat (length e)).
Proof.
  unfold varlenEncode.
  destruct (n <? 0xfd) eqn:E1.
  { intros H. apply pack_Ok in H as (-> & _ & _ & Hr).
    apply Z.ltb_lt in E1. cbn [width le_bytes app].
    unfold varlenDecode. rewrite byte_to_of_Z, Z.mod_small by lia.
    replace (n =? 0xff) with false by (symmetry; apply Z.eqb_neq; lia).
    replace (n =? 0xfe) with false by (symmetry; apply Z.eqb_neq; lia).
    replace (n =? 0xfd) with false by (symmetry; apply Z.eqb_neq; lia).
    reflexivity. }
  destruct (n <=? 0xffff) eqn:E2; [| destruct (n <=? 0xffffffff) eqn:E3].
  all: destruct (pack _ n) as [p |] eqn:Ep; simpl; [| discriminate].
  all: intros H; injection H as <-.
  all: pose proof (pack_Ok _ _ _ Ep) as (_ & Hl & Hv & _).
  all: cbn [app length]; erewrite varlenDecode_tagged by (eauto || exact Hl).
  all: rewrite Hv, Hl; do 2 f_equal; lia.
Qed.

Lemma slice_app_exact {A} (a b : Z) (x y z : list A) :
  Z.to_nat a = length x -> Z.to_nat (b - a) = length y ->
  slice a b (x ++ y ++ z) = y.
Proof.
  intros Ha Hb. unfold slice. rewrite from_app_exact by assumption.
  apply upto_app_exact. assumption.
Qed.

Lemma from_app2_exact {A} (n : Z) (x y z : list A) :
  Z.to_nat n = (length x + length y)%nat -> from n (x ++ y ++ z) = z.
Proof.
  intros H. rewrite app_assoc. apply from_app_exact.
  rewrite length_app. assumption.
Qed.

(** ** Encoding followed by decoding *)

Lemma write_inputs_acc (ins : list txin) (d : bytes) :
  write_inputs ins d
  = match write_inputs ins [] with
    | Ok body => Ok (d ++ body)
    | Raise e => Raise e
    end.
Proof.
  revert d. induction ins as [| [[p s] q] ins IH]; intros d.
  - simpl. now rewrite app_nil_r.
  - cbn [write_inputs].
    destruct (pack fmt_L (snd p)) as [pi |]; [| reflexivity].
    destruct (varlenEncode _) as [l |]; [| reflexivity].
    destruct (pack fmt_L q) as [ps |]; [| reflexivity].
    cbn [rbind]. rewrite IH. symmetry. rewrite IH.
    destruct (write_inputs ins []) as [body |]; [| reflexivity].
    f_equal. simpl. now rewrite <- !app_assoc.
Qed.

Lemma write_outputs_acc (outs : list txout) (d : bytes) :
  write_outputs outs d
  = match write_outputs outs [] with
    | Ok body => Ok (d ++ body)
    | Raise e => Raise e
    end.
Proof.
  revert d. induction outs as [| [a s] outs IH]; intros d.
  - simpl. now rewrite app_nil_r.
  - cbn [write_outputs].
    destruct (pack fmt_Q a) as [pa |]; [| reflexivity].
    destruct (varlenEncode _) as [l |]; [| reflexivity].
    cbn [rbind]. rewrite IH. symmetry. rewrite IH.
    destruct (write_outputs outs []) as [body |]; [| reflexivity].
    f_equal. simpl. now rewrite <- !app_assoc.
Qed.

Lemma read_write_inputs (ins : list txin) :
  Forall hash32 ins ->
  forall body, write_inputs ins [] = Ok body ->
  forall rest rc acc,
    read_inputs (length ins) (body ++ rest) rc acc
    = Ok (acc ++ ins, rest, rc + Z.of_nat (length body)).
Proof.
  induction 1 as [| [[[h ix] s] q] ins Hh _ IH]; intros body Hw rest rc acc.
  - simpl in Hw. injection Hw as <-. simpl.
    rewrite app_nil_r, Z.add_0_r. reflexivity.
  - cbn [write_inputs fst snd] in Hw.
    destruct (pack fmt_L ix) as [pi |] eqn:Epi; [| discriminate].
    destruct (varlenEncode _) as [l |] eqn:El; [| discriminate].
    destruct (pack fmt_L q) as [ps |] eqn:Eps; [| discriminate].
    cbn [rbind] in Hw. rewrite write_inputs_acc in Hw.
    destruct (write_inputs ins []) as [body' |] eqn:Eb; [| discriminate].
    injection Hw as <-.
    pose proof (pack_Ok _ _ _ Epi) as (_ & Hlpi & Hvpi & _).
    pose proof (pack_Ok _ _ _ Eps) as (_ & Hlps & Hvps & _).
    unfold hash32 in Hh. cbn [fst] in Hh. cbn [width] in Hlpi, Hlps.
    cbn [length read_inputs]. simpl app at 1. rewrite <- !app_assoc.
    rewrite slice_app_exact by (rewrite ?Hh, ?Hlpi; reflexivity).
    rewrite unpack_exact by exact Hlpi. cbn [rbind].
    rewrite upto_app_exact by (rewrite Hh; reflexivity).
    rewrite from_app2_exact by (rewrite Hh, Hlpi; reflexivity).
    rewrite varlenDecode_encode with (1 := El). cbn [rbind].
    rewrite (app_assoc s ps).
    replace (slice (Z.of_nat (length s)) (Z.of_nat (length s) + 4) ((s ++ ps) ++ body' ++ rest))
      with ps.
    2:{ rewrite <- app_assoc. symmetry. apply slice_app_exact; [lia |].
        rewrite Hlps. lia. }
    rewrite unpack_exact by exact Hlps. cbn [rbind].
    rewrite from_app_exact by (rewrite length_app, Hlps; lia).
    rewrite <- app_assoc. rewrite upto_app_exact by lia.
    rewrite IH with (1 := eq_refl).
    rewrite Hvpi, Hvps, <- app_assoc. simpl app.
    do 2 f_equal. rewrite !length_app, Hh, Hlpi, Hlps. lia.
Qed.

Lemma read_write_outputs (outs : list txout) :
  forall body, write_outputs outs [] = Ok body ->
  forall rest rc acc,
    read_outputs (length outs) (body ++ rest) rc acc
    = Ok (acc ++ outs, rest, rc + Z.of_nat (length body)).
Proof.
  induction outs as [| [a s] outs IH]; intros body Hw rest rc acc.
  - simpl in Hw. injection Hw as <-. simpl.
    rewrite app_nil_r, Z.add_0_r. reflexivity.
  - cbn [write_outputs] in Hw.
    destruct (pack fmt_Q a) as [pa |] eqn:Epa; [| discriminate].
    destruct (varlenEncode _) as [l |] eqn:El; [| discriminate].
    cbn [rbind] in Hw. rewrite write_outputs_acc in Hw.
    destruct (write_outputs outs []) as [body' |] eqn:Eb; [| discriminate].
    injection Hw as <-.
    pose proof (pack_Ok _ _ _ Epa) as (_ & Hlpa & Hvpa & _).
    cbn [width] in Hlpa.
    cbn [length read_outputs]. simpl app at 1. rewrite <- !app_assoc.
    rewrite upto_app_exact by (rewrite Hlpa; reflexivity).
    rewrite unpack_exact by exact Hlpa. cbn [rbind].
    rewrite from_app_exact by (rewrite Hlpa; reflexivity).
    rewrite varlenDecode_encode with (1 := El). cbn [rbind].
    rewrite upto_app_exact, from_app_exact by lia.
    rewrite IH with (1 := eq_refl).
    rewrite Hvpa, <- app_assoc. simpl app.
    do 2 f_equal. rewrite !length_app, Hlpa. lia.
Qed.

Lemma bytes_eqb_eq (a b : bytes) : bytes_eqb a b = true <-> a = b.
Proof.
  unfold bytes_eqb. destruct (list_eq_dec Byte.byte_eq_dec a b); split;
    congruence.
Qed.

Lemma bytes_eqb_refl (a : bytes) : bytes_eqb a a = true.
Proof. now apply bytes_eqb_eq. Qed.

Lemma upto_all {A} (n : Z) (l : list A) :
  (length l <= Z.to_nat n)%nat -> upto n l = l.
Proof. intros H. unfold upto. now apply firstn_all2. Qed.

Lemma from_all {A} (n : Z) (l : list A) :
  (length l <= Z.to_nat n)%nat -> from n l = [].
Proof. intros H. unfold from. now apply skipn_all2. Qed.

Lemma assemble_fields (t : Txn) v ins outs l :
  version t = Some v -> inputs t = Some ins -> outputs t = Some outs ->
  locktime t = Some l ->
  assemble t
  = match encode v (items ins) outs l with
    | Ok B => (with_txid (dblsha B) (with_data B t), Ok tt)
    | Raise e => (t, Raise e)
    end.
Proof.
  destruct t as [d0 h0 v0 i0 o0 l0]. cbn [version inputs outputs locktime].
  intros -> -> -> ->. unfold assemble, idhash, encode. run.
  destruct (pack fmt_L v) as [pv |]; [| reflexivity]. run.
  destruct (varlenEncode (Z.of_nat (length (items ins)))) as [nin |];
    [| reflexivity]. run.
  destruct (write_inputs (items ins) (pv ++ nin)) as [d1 |]; [| reflexivity]. run.
  destruct (varlenEncode (Z.of_nat (length outs))) as [nout |]; [| reflexivity]. run.
  destruct (write_outputs outs (d1 ++ nout)) as [d2 |]; [| reflexivity]. run.
  destruct (pack fmt_L l) as [pl |]; reflexivity.
Qed.

Lemma assemble_Ok_fields (t t' : Txn) :
  assemble t = (t', Ok tt) ->
  exists v ins outs l,
    version t = Some v /\ inputs t = Some ins /\ outputs t = Some outs
    /\ locktime t = Some l.
Proof.
  destruct t as [d0 h0 v0 i0 o0 l0]. unfold assemble, idhash. run.
  destruct v0 as [v |]; [| discriminate]. run.
  destruct (pack fmt_L v) as [pv |]; [| discriminate]. run.
  destruct i0 as [ins |]; [| discriminate]. run.
  destruct (varlenEncode (Z.of_nat (length (items ins)))) as [nin |];
    [| discriminate]. run.
  destruct (write_inputs (items ins) (pv ++ nin)) as [d1 |]; [| discriminate]. run.
  destruct o0 as [outs |]; [| discriminate]. run.
  destruct (varlenEncode (Z.of_nat (length outs))) as [nout |]; [| discriminate]. run.
  destruct (write_outputs outs (d1 ++ nout)) as [d2 |]; [| discriminate]. run.
  destruct l0 as [l |]; [| discriminate].
  intros _. now exists v, ins, outs, l.
Qed.

Lemma encode_layout v ins outs l B :
  encode v ins outs l = Ok B ->
  exists pv nin bin nout bout pl,
    pack fmt_L v = Ok pv
    /\ varlenEncode (Z.of_nat (length ins)) = Ok nin
    /\ write_inputs ins [] = Ok bin
    /\ varlenEncode (Z.of_nat (length outs)) = Ok nout
    /\ write_outputs outs [] = Ok bout
    /\ pack fmt_L l = Ok pl
    /\ B = pv ++ nin ++ bin ++ nout ++ bout ++ pl.
Proof.
  unfold encode.
  destruct (pack fmt_L v) as [pv |]; [| discriminate]. cbn [rbind].
  destruct (varlenEncode (Z.of_nat (length ins))) as [nin |]; [| discriminate].
  cbn [rbind]. rewrite write_inputs_acc.
  destruct (write_inputs ins []) as [bin |]; [| discriminate]. cbn [rbind].
  destruct (varlenEncode (Z.of_nat (length outs))) as [nout |]; [| discriminate].
  cbn [rbind]. rewrite write_outputs_acc.
  destruct (write_outputs outs []) as [bout |]; [| discriminate]. cbn [rbind].
  destruct (pack fmt_L l) as [pl |]; [| discriminate]. cbn [rbind].
  intros H. injection H as <-.
  exists pv, nin, bin, nout, bout, pl. repeat split; try reflexivity.
  now rewrite <- !app_assoc.
Qed.

(** Decoding the bytes that [encode] built gives back the four fields, in
    both modes, and leaves the raw bytes and the hash alone. *)
Lemma disassemble_encoded (retExtra : bool) (t : Txn) v ins outs l B :
  Forall hash32 ins ->
  encode v ins outs l = Ok B ->
  data t = Some B ->
  exists t1,
    disassemble retExtra t = (t1, Ok (if retExtra then Some [] else None))
    /\ version t1 = Some v /\ inputs t1 = Some (PyList ins) /\ outputs t1 = Some outs
    /\ locktime t1 = Some l /\ data t1 = Some B /\ txid t1 = txid t.
Proof.
  intros Hh He Hd.
  apply encode_layout in He
    as (pv & nin & bin & nout & bout & pl & Hpv & Hnin & Hbin & Hnout & Hbout & Hpl & ->).
  pose proof (pack_Ok _ _ _ Hpv) as (_ & Hlpv & Hvpv & _).
  pose proof (pack_Ok _ _ _ Hpl) as (_ & Hlpl & Hvpl & _).
  cbn [width] in Hlpv, Hlpl.
  destruct t as [d0 h0 v0 i0 o0 l0]. cbn [data] in Hd. subst d0.
  unfold disassemble. run.
  rewrite upto_app_exact by (rewrite Hlpv; reflexivity).
  rewrite unpack_exact by exact Hlpv. run.
  rewrite from_app_exact by (rewrite Hlpv; reflexivity).
  rewrite varlenDecode_encode with (1 := Hnin). run.
  rewrite Nat2Z.id, read_write_inputs with (1 := Hh) (2 := Hbin). run.
  rewrite varlenDecode_encode with (1 := Hnout). run.
  rewrite Nat2Z.id.
  replace pl with (pl ++ []) at 1 by apply app_nil_r.
  rewrite read_write_outputs with (1 := Hbout). run.
  rewrite ?app_nil_r.
  rewrite upto_all by (rewrite Hlpl; simpl; lia).
  rewrite unpack_exact by exact Hlpl. run.
  rewrite Hvpv, Hvpl.
  destruct retExtra; run.
  - set (rc := 4 + Z.of_nat (length nin) + Z.of_nat (length bin)
               + Z.of_nat (length nout) + Z.of_nat (length bout)).
    assert (Hrc : from rc (pv ++ nin ++ bin ++ nout ++ bout ++ pl) = pl).
    { rewrite !app_assoc. apply from_app_exact.
      rewrite !length_app, Hlpv. subst rc. lia. }
    rewrite Hrc, bytes_eqb_refl. run.
    rewrite upto_all by (rewrite !length_app, Hlpv, Hlpl; subst rc; lia).
    rewrite from_all by (rewrite Hlpl; simpl; lia).
    eexists. split; [reflexivity |]. run. repeat split.
  - rewrite Hlpl. run.
    eexists. split; [reflexivity |]. run. repeat split.
Qed.

(** ** Reading from a longer buffer *)

Lemma slice_full {A} (a b : Z) (l : list A) :
  0 <= a -> 0 < b - a ->
  length (slice a b l) = Z.to_nat (b - a) ->
  (Z.to_nat b <= length l)%nat.
Proof.
  intros Ha Hb. unfold slice. rewrite length_upto, length_from. lia.
Qed.

Lemma slice_app_within {A} (a b : Z) (l x : list A) :
  0 <= a -> 0 <= b - a -> (Z.to_nat b <= length l)%nat ->
  slice a b (l ++ x) = slice a b l.
Proof.
  intros Ha Hb Hl. unfold slice.
  rewrite from_app_within by lia.
  apply upto_app_within. rewrite length_from. lia.
Qed.

Lemma upto_full {A} (n : Z) (l : list A) :
  0 < n -> length (upto n l) = Z.to_nat n -> (Z.to_nat n <= length l)%nat.
Proof. intros Hn. rewrite length_upto. lia. Qed.

Lemma varlenDecode_app (b x : bytes) (rc : Z) v b' rc' :
  varlenDecode b rc = Ok (v, b', rc') ->
  varlenDecode (b ++ x) rc = Ok (v, b' ++ x, rc').
Proof.
  destruct b as [| b0 r]; [discriminate |].
  simpl app. unfold varlenDecode.
  change (b0 :: r ++ x) with ((b0 :: r) ++ x).
  set (b := b0 :: r).
  assert (Hstep : forall f k,
             Z.to_nat k = width f ->
             forall v0, unpack f (slice 1 (1 + k) b) = Ok v0 ->
             unpack f (slice 1 (1 + k) (b ++ x)) = Ok v0
             /\ from (1 + k) (b ++ x) = from (1 + k) b ++ x).
  { intros f k Hk v0 Hu.
    assert (1 <= width f)%nat by (destruct f; simpl; lia).
    pose proof (proj1 (unpack_Ok _ _ _) Hu) as [Hl _].
    assert (Hb : (Z.to_nat (1 + k) <= length b)%nat).
    { apply (slice_full 1); [lia | lia |].
      rewrite Hl. replace (1 + k - 1) with k by lia. now symmetry. }
    rewrite slice_app_within by lia.
    rewrite from_app_within by lia. auto. }
  destruct (byte_to_Z b0 =? 0xff);
    [| destruct (byte_to_Z b0 =? 0xfe); [| destruct (byte_to_Z b0 =? 0xfd)]].
  - destruct (unpack fmt_Q (slice 1 9 b)) as [v0 |] eqn:E; [| discriminate].
    destruct (Hstep fmt_Q 8 eq_refl v0 E) as [H1 H2].
    change (1 + 8) with 9 in H1, H2. rewrite H1, H2.
    cbn [rbind]. intros H. injection H as <- <- <-. reflexivity.
  - destruct (unpack fmt_L (slice 1 5 b)) as [v0 |] eqn:E; [| discriminate].
    destruct (Hstep fmt_L 4 eq_refl v0 E) as [H1 H2].
    change (1 + 4) with 5 in H1, H2. rewrite H1, H2.
    cbn [rbind]. intros H. injection H as <- <- <-. reflexivity.
  - destruct (unpack fmt_H (slice 1 3 b)) as [v0 |] eqn:E; [| discriminate].
    destruct (Hstep fmt_H 2 eq_refl v0 E) as [H1 H2].
    change (1 + 2) with 3 in H1, H2. rewrite H1, H2.
    cbn [rbind]. intros H. injection H as <- <- <-. reflexivity.
  - intros H. injection H as <- <- <-. reflexivity.
Qed.

Lemma varlenDecode_nonneg (b : bytes) (rc : Z) v b' rc' :
  varlenDecode b rc = Ok (v, b', rc') -> 0 <= v.
Proof.
  destruct b as [| b0 r]; [discriminate |]. unfold varlenDecode.
  destruct (byte_to_Z b0 =? 0xff);
    [| destruct (byte_to_Z b0 =? 0xfe); [| destruct (byte_to_Z b0 =? 0xfd)]].
  1-3: destruct (unpack _ _) as [v0 |] eqn:E; [| discriminate];
       apply unpack_Ok in E as [_ ->]; cbn [rbind];
       intros H; injection H as <- _ _; apply le_value_range.
  intros H. injection H as <- _ _. apply byte_to_Z_range.
Qed.

Lemma varlenDecode_shorter (b : bytes) (rc : Z) v b' rc' :
  varlenDecode b rc = Ok (v, b', rc') -> (length b' < length b)%nat.
Proof.
  destruct b as [| b0 r]; [discriminate |]. unfold varlenDecode.
  destruct (byte_to_Z b0 =? 0xff);
    [| destruct (byte_to_Z b0 =? 0xfe); [| destruct (byte_to_Z b0 =? 0xfd)]].
  1-3: destruct (unpack _ _) as [v0 |]; [| discriminate]; cbn [rbind].
  all: intros H; injection H as _ <- _; rewrite length_from; simpl; lia.
Qed.

Lemma varlenDecode_Raise (b : bytes) (rc : Z) (e : exn) :
  varlenDecode b rc = Raise e -> short_read e.
Proof.
  unfold short_read. destruct b as [| b0 r].
  - intros H. injection H as <-. auto.
  - unfold varlenDecode.
    destruct (byte_to_Z b0 =? 0xff);
      [| destruct (byte_to_Z b0 =? 0xfe); [| destruct (byte_to_Z b0 =? 0xfd)]].
    1-3: destruct (unpack _ _) as [v0 |] eqn:E; [discriminate |];
         apply unpack_Raise in E as [-> _]; cbn [rbind];
         intros H; injection H as <-; auto.
    discriminate.
Qed.

Lemma read_inputs_app (x : bytes) (n : nat) :
  forall data rc acc ins d' rc',
    read_inputs n data rc acc = Ok (ins, d', rc') ->
    read_inputs n (data ++ x) rc acc = Ok (ins, d' ++ x, rc').
Proof.
  induction n as [| n IH]; intros data rc acc ins d' rc' H.
  - simpl in *. injection H as <- <- <-. reflexivity.
  - cbn [read_inputs] in *.
    destruct (unpack fmt_L (slice 32 36 data)) as [ix |] eqn:E1; [| discriminate].
    pose proof (proj1 (unpack_Ok _ _ _) E1) as [Hl1 _].
    apply (slice_full 32 36) in Hl1; [| lia | lia].
    rewrite slice_app_within, E1 by lia. cbn [rbind] in *.
    rewrite from_app_within by lia.
    destruct (varlenDecode (from 36 data) (rc + 36)) as [[[len d1] rc1] |] eqn:E2;
      [| discriminate].
    pose proof (varlenDecode_nonneg _ _ _ _ _ E2) as Hlen.
    rewrite varlenDecode_app with (1 := E2). cbn [rbind] in *.
    destruct (unpack fmt_L (slice len (len + 4) d1)) as [sq |] eqn:E3; [| discriminate].
    pose proof (proj1 (unpack_Ok _ _ _) E3) as [Hl3 _].
    assert (Hb3 : (Z.to_nat (len + 4) <= length d1)%nat).
    { apply (slice_full len); [lia | lia |].
      rewrite Hl3. replace (len + 4 - len) with 4 by lia. reflexivity. }
    rewrite slice_app_within, E3 by lia. cbn [rbind] in *.
    rewrite from_app_within by lia.
    rewrite !upto_app_within by lia.
    apply IH. exact H.
Qed.

Lemma read_inputs_Raise (n : nat) :
  forall data rc acc e, read_inputs n data rc acc = Raise e -> short_read e.
Proof.
  induction n as [| n IH]; intros data rc acc e H; [discriminate |].
  cbn [read_inputs] in H.
  destruct (unpack fmt_L (slice 32 36 data)) as [ix |] eqn:E1.
  2:{ apply unpack_Raise in E1 as [-> _]. injection H as <-. now left. }
  cbn [rbind] in H.
  destruct (varlenDecode (from 36 data) (rc + 36)) as [[[len d1] rc1] | e1] eqn:E2.
  2:{ injection H as <-. eapply varlenDecode_Raise, E2. }
  cbn [rbind] in H.
  destruct (unpack fmt_L (slice len (len + 4) d1)) as [sq |] eqn:E3.
  2:{ apply unpack_Raise in E3 as [-> _]. injection H as <-. now left. }
  cbn [rbind] in H. eapply IH, H.
Qed.

Lemma read_outputs_shorter (n : nat) :
  forall data rc acc outs d' rc',
    read_outputs n data rc acc = Ok (outs, d', rc') ->
    (length d' <= length data)%nat.
Proof.
  induction n as [| n IH]; intros data rc acc outs d' rc' H.
  - simpl in H. injection H as _ <- _. lia.
  - cbn [read_outputs] in H.
    destruct (unpack fmt_Q (upto 8 data)) as [a |]; [| discriminate].
    cbn [rbind] in H.
    destruct (varlenDecode (from 8 data) (rc + 8)) as [[[len d1] rc1] |] eqn:E2;
      [| discriminate].
    cbn [rbind] in H. apply IH in H. apply varlenDecode_shorter in E2.
    rewrite length_from in *. lia.
Qed.

Lemma read_outputs_app (x : bytes) (n : nat) :
  forall data rc acc outs d' rc',
    read_outputs n data rc acc = Ok (outs, d', rc') ->
    d' <> [] ->
    read_outputs n (data ++ x) rc acc = Ok (outs, d' ++ x, rc').
Proof.
  induction n as [| n IH]; intros data rc acc outs d' rc' H Hne.
  - simpl in *. injection H as <- <- <-. reflexivity.
  - cbn [read_outputs] in *.
    destruct (unpack fmt_Q (upto 8 data)) as [a |] eqn:E1; [| discriminate].
    pose proof (proj1 (unpack_Ok _ _ _) E1) as [Hl1 _].
    apply (upto_full 8) in Hl1; [| lia].
    rewrite upto_app_within, E1 by lia. cbn [rbind] in *.
    rewrite from_app_within by lia.
    destruct (varlenDecode (from 8 data) (rc + 8)) as [[[len d1] rc1] |] eqn:E2;
      [| discriminate].
    rewrite varlenDecode_app with (1 := E2). cbn [rbind] in *.
    pose proof (read_outputs_shorter _ _ _ _ _ _ _ H) as Hs.
    rewrite length_from in Hs.
    assert (length d' <> 0)%nat by (destruct d'; simpl; [congruence | lia]).
    rewrite upto_app_within, from_app_within by lia.
    apply IH; assumption.
Qed.

Lemma read_outputs_Raise (n : nat) :
  forall data rc acc e, read_outputs n data rc acc = Raise e -> short_read e.
Proof.
  induction n as [| n IH]; intros data rc acc e H; [discriminate |].
  cbn [read_outputs] in H.
  destruct (unpack fmt_Q (upto 8 data)) as [a |] eqn:E1.
  2:{ apply unpack_Raise in E1 as [-> _]. injection H as <-. now left. }
  cbn [rbind] in H.
  destruct (varlenDecode (from 8 data) (rc + 8)) as [[[len d1] rc1] | e1] eqn:E2.
  2:{ injection H as <-. eapply varlenDecode_Raise, E2. }
  cbn [rbind] in H. eapply IH, H.
Qed.

(** ** The reads of [disassemble] *)

Lemma disassemble_parse_Ok (retExtra : bool) (t : Txn) d v ins outs d4 rc :
  data t = Some d ->
  parse d = Ok (v, ins, outs, d4, rc) ->
  disassemble retExtra t = finish retExtra d t v ins outs d4 rc.
Proof.
  destruct t as [d0 h0 v0 i0 o0 l0]. cbn [data]. intros ->.
  unfold parse, disassemble, finish. run.
  destruct (unpack fmt_L (upto 4 d)) as [v1 |]; [| discriminate]. run.
  destruct (varlenDecode (from 4 d) 4) as [[[ic d1] rc1] |]; [| discriminate]. run.
  destruct (read_inputs (Z.to_nat ic) d1 rc1 []) as [[[ins1 d2] rc2] |];
    [| discriminate]. run.
  destruct (varlenDecode d2 rc2) as [[[oc d3] rc3] |]; [| discriminate]. run.
  destruct (read_outputs (Z.to_nat oc) d3 rc3 []) as [[[outs1 d4'] rc4] |];
    [| discriminate]. run.
  intros H. injection H as -> -> -> -> ->.
  destruct (unpack fmt_L (upto 4 d4)) as [l |]; [| reflexivity]. run.
  destruct retExtra; run.
  - destruct (bytes_eqb d4 (from rc d)); reflexivity.
  - destruct (Nat.eqb (length d4) 4); reflexivity.
Qed.

Lemma disassemble_parse_Raise (retExtra : bool) (t : Txn) d e :
  data t = Some d ->
  parse d = Raise e ->
  exists t',
    disassemble retExtra t = (t', Raise e)
    /\ (t' = t
        \/ (exists v, unpack fmt_L (upto 4 d) = Ok v /\ t' = with_version v t)
        \/ (exists v ins, unpack fmt_L (upto 4 d) = Ok v
                          /\ t' = with_inputs (PyList ins) (with_version v t))).
Proof.
  destruct t as [d0 h0 v0 i0 o0 l0]. cbn [data]. intros ->.
  unfold parse, disassemble. run.
  destruct (unpack fmt_L (upto 4 d)) as [v1 |]; run.
  2:{ intros H. injection H as <-. eexists. split; [reflexivity | now left]. }
  destruct (varlenDecode (from 4 d) 4) as [[[ic d1] rc1] |]; run.
  2:{ intros H. injection H as <-. eexists. split; [reflexivity |].
      right. left. now exists v1. }
  destruct (read_inputs (Z.to_nat ic) d1 rc1 []) as [[[ins1 d2] rc2] |]; run.
  2:{ intros H. injection H as <-. eexists. split; [reflexivity |].
      right. left. now exists v1. }
  destruct (varlenDecode d2 rc2) as [[[oc d3] rc3] |]; run.
  2:{ intros H. injection H as <-. eexists. split; [reflexivity |].
      right. right. now exists v1, ins1. }
  destruct (read_outputs (Z.to_nat oc) d3 rc3 []) as [[[outs1 d4'] rc4] |]; run.
  2:{ intros H. injection H as <-. eexists. split; [reflexivity |].
      right. right. now exists v1, ins1. }
  discriminate.
Qed.

Lemma parse_app (d x : bytes) v ins outs d4 rc :
  parse d = Ok (v, ins, outs, d4, rc) ->
  d4 <> [] ->
  parse (d ++ x) = Ok (v, ins, outs, d4 ++ x, rc).
Proof.
  unfold parse. intros H Hne.
  destruct (unpack fmt_L (upto 4 d)) as [v1 |] eqn:E1; [| discriminate].
  pose proof (proj1 (unpack_Ok _ _ _) E1) as [Hl1 _].
  apply (upto_full 4) in Hl1; [| lia].
  rewrite upto_app_within, E1 by lia. cbn [rbind] in *.
  rewrite from_app_within by lia.
  destruct (varlenDecode (from 4 d) 4) as [[[ic d1] rc1] |] eqn:E2; [| discriminate].
  rewrite varlenDecode_app with (1 := E2). cbn [rbind] in *.
  destruct (read_inputs (Z.to_nat ic) d1 rc1 []) as [[[ins1 d2] rc2] |] eqn:E3;
    [| discriminate].
  rewrite read_inputs_app with (1 := E3). cbn [rbind] in *.
  destruct (varlenDecode d2 rc2) as [[[oc d3] rc3] |] eqn:E4; [| discriminate].
  rewrite varlenDecode_app with (1 := E4). cbn [rbind] in *.
  destruct (read_outputs (Z.to_nat oc) d3 rc3 []) as [[[outs1 d4'] rc4] |] eqn:E5;
    [| discriminate].
  cbn [rbind] in *. injection H as -> -> -> -> ->.
  rewrite read_outputs_app with (1 := E5) by assumption. reflexivity.
Qed.

Lemma parse_Raise (d : bytes) (e : exn) : parse d = Raise e -> short_read e.
Proof.
  unfold parse. intros H.
  destruct (unpack fmt_L (upto 4 d)) as [v1 |] eqn:E1.
  2:{ apply unpack_Raise in E1 as [-> _]. injection H as <-. now left. }
  cbn [rbind] in H.
  destruct (varlenDecode (from 4 d) 4) as [[[ic d1] rc1] |] eqn:E2.
  2:{ injection H as <-. eapply varlenDecode_Raise, E2. }
  cbn [rbind] in H.
  destruct (read_inputs (Z.to_nat ic) d1 rc1 []) as [[[ins1 d2] rc2] |] eqn:E3.
  2:{ injection H as <-. eapply read_inputs_Raise, E3. }
  cbn [rbind] in H.
  destruct (varlenDecode d2 rc2) as [[[oc d3] rc3] |] eqn:E4.
  2:{ injection H as <-. eapply varlenDecode_Raise, E4. }
  cbn [rbind] in H.
  destruct (read_outputs (Z.to_nat oc) d3 rc3 []) as [[[outs1 d4'] rc4] |] eqn:E5.
  2:{ injection H as <-. eapply read_outputs_Raise, E5. }
  discriminate.
Qed.

Lemma disassemble_no_data (retExtra : bool) (t : Txn) :
  data t = None -> disassemble retExtra t = (t, Raise AttributeError).
Proof.
  destruct t as [d0 h0 v0 i0 o0 l0]. cbn [data]. intros ->. reflexivity.
Qed.

(** [disassemble] never assigns [self.txid]. *)
Lemma disassemble_txid (retExtra : bool) (t : Txn) :
  txid (fst (disassemble retExtra t)) = txid t.
Proof.
  destruct (data t) as [d |] eqn:Hd.
  2:{ now rewrite disassemble_no_data. }
  destruct (parse d) as [[[[[v ins] outs] d4] rc] | e] eqn:Hp.
  - rewrite disassemble_parse_Ok with (1 := Hd) (2 := Hp). unfold finish.
    destruct (unpack fmt_L (upto 4 d4)); [| reflexivity].
    destruct retExtra.
    + destruct (bytes_eqb d4 (from rc d)); reflexivity.
    + destruct (Nat.eqb (length d4) 4); reflexivity.
  - destruct (disassemble_parse_Raise retExtra t d e Hd Hp) as (t' & -> & Ht').
    destruct Ht' as [-> | [(v & _ & ->) | (v & ins & _ & ->)]]; reflexivity.
Qed.

Lemma construct_nonempty (b : byte) (r : bytes) :
  construct (Some (b :: r))
  = (mkTxn (Some (b :: r)) (Some (dblsha (b :: r))) None None None None, Ok tt).
Proof. reflexivity. Qed.

Lemma prevout_eqb_eq (p q : prevout) : prevout_eqb p q = true <-> p = q.
Proof.
  destruct p as [h i], q as [h' i']. unfold prevout_eqb. cbn [fst snd].
  rewrite andb_true_iff, bytes_eqb_eq, Z.eqb_eq. split.
  - intros [-> ->]. reflexivity.
  - intros H. injection H as -> ->. auto.
Qed.

(** ** The position counter *)

Lemma varlenDecode_rc (b : bytes) (rc : Z) v b' rc' :
  varlenDecode b rc = Ok (v, b', rc') ->
  rc <= rc' /\ b' = from (rc' - rc) b.
Proof.
  destruct b as [| b0 r]; [discriminate |]. unfold varlenDecode.
  destruct (byte_to_Z b0 =? 0xff);
    [| destruct (byte_to_Z b0 =? 0xfe); [| destruct (byte_to_Z b0 =? 0xfd)]].
  1-3: destruct (unpack _ _) as [v0 |]; [| discriminate]; cbn [rbind].
  all: intros H; injection H as _ <- <-.
  all: split; [lia | f_equal; lia].
Qed.

Lemma read_inputs_rc (n : nat) :
  forall data rc acc ins d' rc',
    read_inputs n data rc acc = Ok (ins, d', rc') ->
    rc <= rc' /\ d' = from (rc' - rc) data.
Proof.
  induction n as [| n IH]; intros data rc acc ins d' rc' H.
  - simpl in H. injection H as _ <- <-. split; [lia |].
    now rewrite Z.sub_diag.
  - cbn [read_inputs] in H.
    destruct (unpack fmt_L (slice 32 36 data)) as [ix |]; [| discriminate].
    cbn [rbind] in H.
    destruct (varlenDecode (from 36 data) (rc + 36)) as [[[len d1] rc1] |] eqn:E2;
      [| discriminate].
    cbn [rbind] in H.
    destruct (unpack fmt_L (slice len (len + 4) d1)) as [sq |]; [| discriminate].
    cbn [rbind] in H.
    pose proof (varlenDecode_nonneg _ _ _ _ _ E2) as Hlen.
    apply varlenDecode_rc in E2 as [Hrc1 ->].
    apply IH in H as [Hrc' ->].
    split; [lia |].
    rewrite !from_from by lia. f_equal. lia.
Qed.

Lemma read_outputs_rc (n : nat) :
  forall data rc acc outs d' rc',
    read_outputs n data rc acc = Ok (outs, d', rc') ->
    rc <= rc' /\ d' = from (rc' - rc) data.
Proof.
  induction n as [| n IH]; intros data rc acc outs d' rc' H.
  - simpl in H. injection H as _ <- <-. split; [lia |].
    now rewrite Z.sub_diag.
  - cbn [read_outputs] in H.
    destruct (unpack fmt_Q (upto 8 data)) as [a |]; [| discriminate].
    cbn [rbind] in H.
    destruct (varlenDecode (from 8 data) (rc + 8)) as [[[len d1] rc1] |] eqn:E2;
      [| discriminate].
    cbn [rbind] in H.
    pose proof (varlenDecode_nonneg _ _ _ _ _ E2) as Hlen.
    apply varlenDecode_rc in E2 as [Hrc1 ->].
    apply IH in H as [Hrc' ->].
    split; [lia |].
    rewrite !from_from by lia. f_equal. lia.
Qed.

(** The counter [rc] is the offset of the bytes left: the assert on line 104
    cannot fail. *)
Lemma parse_rc (d : bytes) v ins outs d4 rc :
  parse d = Ok (v, ins, outs, d4, rc) -> 4 <= rc /\ d4 = from rc d.
Proof.
  unfold parse. intros H.
  destruct (unpack fmt_L (upto 4 d)) as [v1 |]; [| discriminate].
  cbn [rbind] in H.
  destruct (varlenDecode (from 4 d) 4) as [[[ic d1] rc1] |] eqn:E2; [| discriminate].
  cbn [rbind] in H.
  destruct (read_inputs (Z.to_nat ic) d1 rc1 []) as [[[ins1 d2] rc2] |] eqn:E3;
    [| discriminate].
  cbn [rbind] in H.
  destruct (varlenDecode d2 rc2) as [[[oc d3] rc3] |] eqn:E4; [| discriminate].
  cbn [rbind] in H.
  destruct (read_outputs (Z.to_nat oc) d3 rc3 []) as [[[outs1 d4'] rc4] |] eqn:E5;
    [| discriminate].
  cbn [rbind] in H. injection H as _ _ _ <- <-.
  apply varlenDecode_rc in E2 as [H2 ->].
  apply read_inputs_rc in E3 as [H3 ->].
  apply varlenDecode_rc in E4 as [H4 ->].
  apply read_outputs_rc in E5 as [H5 ->].
  split; [lia |].
  rewrite !from_from by lia. f_equal. lia.
Qed.

(** [disassemble(retExtra=True)] on a complete transaction [B] followed by
    [extra]: it returns [extra], cuts the raw bytes down to [B] and leaves
    the hash as it was. *)
Lemma disassemble_retExtra_trailing (B extra : bytes) (t : Txn) :
  decodes B ->
  data t = Some (B ++ extra) ->
  exists t',
    disassemble true t = (t', Ok (Some extra))
    /\ data t' = Some B /\ txid t' = txid t.
Proof.
  intros (t0 & t0' & Hd0 & Hdis) Hd.
  destruct (parse B) as [[[[[v ins] outs] d4] rc] | e] eqn:Hp.
  2:{ destruct (disassemble_parse_Raise false t0 B e Hd0 Hp) as (t' & Ht' & _).
      congruence. }
  rewrite disassemble_parse_Ok with (1 := Hd0) (2 := Hp) in Hdis.
  unfold finish in Hdis.
  destruct (unpack fmt_L (upto 4 d4)) as [l |] eqn:Hu; [| discriminate].
  destruct (Nat.eqb (length d4) 4) eqn:Hlen; [| discriminate].
  apply Nat.eqb_eq in Hlen.
  assert (Hd4 : d4 <> []) by (destruct d4; [discriminate | congruence]).
  destruct (parse_rc _ _ _ _ _ _ Hp) as [Hrc Hfrom].
  assert (HlenB : length B = Z.to_nat (rc + 4)).
  { rewrite Hfrom, length_from in Hlen. lia. }
  rewrite disassemble_parse_Ok with (1 := Hd) (2 := parse_app _ extra _ _ _ _ _ Hp Hd4).
  unfold finish. rewrite upto_app_within, Hu by lia.
  rewrite from_app_within by lia. rewrite <- Hfrom, bytes_eqb_refl.
  rewrite upto_app_exact by lia.
  rewrite from_app_exact by (rewrite Hlen; reflexivity).
  eexists. split; [reflexivity |].
  destruct t; split; reflexivity.
Qed.

(** ** The hash and the raw bytes *)

Lemma construct_hash_current (d : option bytes) :
  hash_current (fst (construct d)).
Proof.
  destruct d as [[| b r] |]; try (intros d h H; discriminate H).
  rewrite construct_nonempty. intros d h H1 H2. cbn [fst data txid] in H1, H2.
  congruence.
Qed.

Lemma assemble_hash_current (t : Txn) :
  hash_current t -> hash_current (fst (assemble t)).
Proof.
  intros Ht.
  assert (Hcases : fst (assemble t) = t
                   \/ exists B, fst (assemble t) = with_txid (dblsha B) (with_data B t)).
  { destruct t as [d0 h0 v0 i0 o0 l0]. unfold assemble, idhash. run.
    destruct v0 as [v |]; [| now left]. run.
    destruct (pack fmt_L v) as [pv |]; [| now left]. run.
    destruct i0 as [ins |]; [| now left]. run.
    destruct (varlenEncode (Z.of_nat (length (items ins)))) as [nin |]; [| now left]. run.
    destruct (write_inputs (items ins) (pv ++ nin)) as [d1 |]; [| now left]. run.
    destruct o0 as [outs |]; [| now left]. run.
    destruct (varlenEncode (Z.of_nat (length outs))) as [nout |]; [| now left]. run.
    destruct (write_outputs outs (d1 ++ nout)) as [d2 |]; [| now left]. run.
    destruct l0 as [l |]; [| now left]. run.
    destruct (pack fmt_L l) as [pl |]; [| now left]. run.
    right. eexists. reflexivity. }
  destruct Hcases as [-> | (B & ->)]; [exact Ht |].
  intros d h H1 H2. cbn [data txid with_txid with_data] in H1, H2. congruence.
Qed.

Lemma disassemble_default_hash_current (t : Txn) :
  hash_current t -> hash_current (fst (disassemble false t)).
Proof.
  intros Ht. destruct (data t) as [d |] eqn:Hd.
  2:{ now rewrite disassemble_no_data. }
  assert (Hdata : data (fst (disassemble false t)) = data t).
  { destruct (parse d) as [[[[[v ins] outs] d4] rc] | e] eqn:Hp.
    - rewrite disassemble_parse_Ok with (1 := Hd) (2 := Hp). unfold finish.
      destruct (unpack fmt_L (upto 4 d4)); [| reflexivity].
      destruct (Nat.eqb (length d4) 4); reflexivity.
    - destruct (disassemble_parse_Raise false t d e Hd Hp) as (t' & -> & Ht').
      destruct Ht' as [-> | [(v & _ & ->) | (v & ins & _ & ->)]]; reflexivity. }
  intros d' h H1 H2. rewrite Hdata in H1. rewrite disassemble_txid in H2.
  eauto.
Qed.

(** ** The claims *)

(** C2: for every non-empty [B], [Txn(B)] sets the identity hash to
    [dblsha(B)], and a following [disassemble], in either mode and whether
    it succeeds or raises, leaves that hash in place. *)
Theorem construct_hash_stable (B : bytes) :
  B <> [] ->
  snd (construct (Some B)) = Ok tt
  /\ txid (fst (construct (Some B))) = Some (dblsha B)
  /\ forall retExtra,
       txid (fst (disassemble retExtra (fst (construct (Some B)))))
       = Some (dblsha B).
Proof.
  intros HB. destruct B as [| b r]; [congruence |].
  rewrite construct_nonempty. cbn [fst snd]. repeat split.
  intros retExtra. now rewrite disassemble_txid.
Qed.

(** C3: the relation hash = double hash of the raw bytes holds after
    [Txn(B)] for [B = d ++ [0xaa]], and [disassemble(retExtra=True)] breaks
    it: the call succeeds, cuts the raw bytes down to [d] and keeps the hash
    of [B], which is not the double hash of the raw bytes now held. *)
Theorem retExtra_truncation_stale_txid :
  let B := Tests.d ++ [xaa] in
  let t := fst (construct (Some B)) in
  let r := disassemble true t in
  hash_current t
  /\ snd r = Ok (Some [xaa])
  /\ data (fst r) = Some Tests.d
  /\ txid (fst r) = Some (dblsha B)
  /\ ~ hash_current (fst r).
Proof.
  cbv zeta. split; [apply construct_hash_current |].
  split; [vm_compute; reflexivity |].
  split; [vm_compute; reflexivity |].
  split; [vm_compute; reflexivity |].
  intros H.
  specialize (H Tests.d (dblsha (Tests.d ++ [xaa]))).
  assert (E : dblsha (Tests.d ++ [xaa]) = dblsha Tests.d)
    by (apply H; vm_compute; reflexivity).
  vm_compute in E. discriminate E.
Qed.

(** C5, as stated, fails: on the 4-byte buffer 01 00 00 00 [disassemble]
    raises IndexError after it has assigned the version and nothing else. *)
Lemma disassemble_partial_state :
  let t := fst (construct (Some [x01; x00; x00; x00])) in
  let r := disassemble false t in
  snd r = Raise IndexError
  /\ ~ fields_unchanged t (fst r)
  /\ ~ fields_assigned (fst r).
Proof.
  cbv zeta. split; [vm_compute; reflexivity | split].
  - intros (H & _). vm_compute in H. discriminate.
  - intros (v & ins & outs & l & _ & H & _). vm_compute in H. discriminate.
Qed.

(** C7: on an object that has its input sequence, [isCoinbase] returns a
    boolean and leaves the object alone; the boolean is true exactly when
    there is one input and its previous output is the null sentinel (32 zero
    bytes, index 0xffffffff), and false for every other input sequence. *)
Theorem isCoinbase_iff (t : Txn) (ins : pyseq txin) :
  inputs t = Some ins ->
  exists b,
    isCoinbase t = (t, Ok b)
    /\ (b = true
        <-> exists i, items ins = [i] /\ fst (fst i) = (_nullprev, 0xffffffff)).
Proof.
  destruct t as [d0 h0 v0 i0 o0 l0]. cbn [inputs]. intros ->.
  unfold isCoinbase. run.
  destruct (items ins) as [| i [| j rest]]; cbn [length Nat.eqb]; run.
  - exists false. split; [reflexivity |]. split; [discriminate |].
    intros (i & H & _). discriminate.
  - eexists. split; [reflexivity |]. rewrite prevout_eqb_eq. split.
    + intros H. exists i. auto.
    + intros (i' & H & H'). injection H as <-. exact H'.
  - exists false. split; [reflexivity |]. split; [discriminate |].
    intros (i' & H & _). discriminate.
Qed.

(** C8: [setCoinbase(S, seqno, height=H)] makes the input sequence the
    single input (null sentinel, [encodeUNum(H) + S], seqno), whatever the
    inputs were; without a height the script is [S]. [getCoinbase] then
    returns that script and [isCoinbase] returns true. *)
Theorem setCoinbase_inputs (encodeUNum : N -> bytes) (S : bytes) (seqno : Z)
  (height : option N) (t : Txn) :
  let script :=
    match height with
    | Some H => encodeUNum H ++ S
    | None => S
    end in
  let t' := fst (setCoinbase encodeUNum S seqno height t) in
  snd (setCoinbase encodeUNum S seqno height t) = Ok tt
  /\ inputs t' = Some (PyTuple [((_nullprev, 0xffffffff), script, seqno)])
  /\ getCoinbase t' = (t', Ok script)
  /\ isCoinbase t' = (t', Ok true)
  /\ t' = with_inputs (PyTuple [((_nullprev, 0xffffffff), script, seqno)]) t.
Proof.
  destruct t as [d0 h0 v0 i0 o0 l0].
  destruct height; cbv zeta; repeat split.
Qed.

(** C9: [Txn.new()] has version 1, empty inputs and outputs, locktime 0 and
    neither raw bytes nor hash; [assemble] on it succeeds and stores the ten
    bytes 01 00 00 00 00 00 00 00 00 00. *)
Theorem new_assemble :
  new = mkTxn None None (Some 1) (Some (PyList [])) (Some []) (Some 0)
  /\ snd (assemble new) = Ok tt
  /\ data (fst (assemble new))
     = Some [x01; x00; x00; x00; x00; x00; x00; x00; x00; x00].
Proof.
  vm_compute. repeat split.
Qed.

(** C10: [Txn(b'')] does what [Txn()] does: [__init__] returns without
    touching the object, so the new object has no raw bytes and no hash. *)
Theorem construct_empty_bytes :
  (forall t, __init__ (Some []) t = __init__ None t)
  /\ construct (Some []) = construct None
  /\ construct (Some []) = (no_attributes, Ok tt)
  /\ data (fst (construct (Some []))) = None
  /\ txid (fst (construct (Some []))) = None.
Proof.
  repeat split.
Qed.

(** ** The theorems at concrete inputs *)

(** The hash of the ten-byte transaction of line 147 through a decode. *)
Lemma construct_hash_stable_witness :
  snd (construct (Some Tests.d)) = Ok tt
  /\ txid (fst (construct (Some Tests.d))) = Some (dblsha Tests.d)
  /\ forall retExtra,
       txid (fst (disassemble retExtra (fst (construct (Some Tests.d)))))
       = Some (dblsha Tests.d).
Proof.
  apply (construct_hash_stable Tests.d). discriminate.
Defined.

(** The coinbase input that [setCoinbase] stores. *)
Lemma isCoinbase_iff_witness :
  let ins := PyTuple [((_nullprev, 0xffffffff), Tests.COINBASE, 0xffffffff)] in
  exists b,
    isCoinbase (with_inputs ins new) = (with_inputs ins new, Ok b)
    /\ (b = true
        <-> exists i, items ins = [i] /\ fst (fst i) = (_nullprev, 0xffffffff)).
Proof.
  cbv zeta. apply isCoinbase_iff. reflexivity.
Defined.

(** ** Reading from a shorter buffer *)

Lemma upto_upto {A} (a K : Z) (l : list A) :
  a <= K -> upto a (upto K l) = upto a l.
Proof.
  intros H. unfold upto. rewrite firstn_firstn. f_equal. lia.
Qed.

Lemma from_upto {A} (a K : Z) (l : list A) :
  0 <= a -> from a (upto K l) = upto (K - a) (from a l).
Proof.
  intros H. unfold from, upto. rewrite skipn_firstn_comm. f_equal. lia.
Qed.

Lemma slice_upto {A} (a b K : Z) (l : list A) :
  0 <= a -> b <= K -> slice a b (upto K l) = slice a b l.
Proof.
  intros Ha Hb. unfold slice. rewrite from_upto by lia.
  apply upto_upto. lia.
Qed.

(** Closes a goal whose two sides differ in the length of the cut. *)
Ltac cut_done :=
  match goal with
  | |- Ok (_, upto ?x _, _) = Ok (_, upto ?y _, _) =>
      replace x with y by lia; reflexivity
  | |- Ok (_, _, _, upto ?x _, _) = Ok (_, _, _, upto ?y _, _) =>
      replace x with y by lia; reflexivity
  end.

Lemma varlenDecode_cut (b : bytes) (rc K : Z) v b' rc' :
  varlenDecode b rc = Ok (v, b', rc') ->
  rc' - rc <= K ->
  varlenDecode (upto K b) rc = Ok (v, upto (K - (rc' - rc)) b', rc').
Proof.
  destruct b as [| b0 r]; [discriminate |]. intros H HK.
  pose proof (varlenDecode_rc _ _ _ _ _ H) as [Hrc _].
  assert (Hk : 1 <= rc' - rc).
  { revert H. unfold varlenDecode.
    destruct (byte_to_Z b0 =? 0xff);
      [| destruct (byte_to_Z b0 =? 0xfe); [| destruct (byte_to_Z b0 =? 0xfd)]].
    1-3: destruct (unpack _ _); [| discriminate]; cbn [rbind].
    all: intros H; injection H as _ _ <-; lia. }
  assert (Hc : upto K (b0 :: r) = b0 :: upto (K - 1) r).
  { unfold upto. replace (Z.to_nat K) with (S (Z.to_nat (K - 1))) by lia.
    reflexivity. }
  revert H. rewrite Hc. unfold varlenDecode. rewrite <- Hc.
  destruct (byte_to_Z b0 =? 0xff);
    [| destruct (byte_to_Z b0 =? 0xfe); [| destruct (byte_to_Z b0 =? 0xfd)]].
  1-3: destruct (unpack _ (slice _ _ (b0 :: r))) as [v0 |] eqn:E;
       [| discriminate]; cbn [rbind];
       intros H; injection H as <- <- <-;
       rewrite slice_upto, E by lia; cbn [rbind];
       rewrite from_upto by lia; cut_done.
  intros H; injection H as <- <- <-.
  rewrite from_upto by lia. cut_done.
Qed.

Lemma read_inputs_cut (n : nat) :
  forall data rc acc ins d' rc' K,
    read_inputs n data rc acc = Ok (ins, d', rc') ->
    rc' - rc <= K ->
    read_inputs n (upto K data) rc acc
    = Ok (ins, upto (K - (rc' - rc)) d', rc').
Proof.
  induction n as [| n IH]; intros data rc acc ins d' rc' K H HK.
  - simpl in *. injection H as <- <- <-.
    rewrite Z.sub_diag, Z.sub_0_r. reflexivity.
  - cbn [read_inputs] in *.
    destruct (unpack fmt_L (slice 32 36 data)) as [ix |] eqn:E1; [| discriminate].
    cbn [rbind] in H.
    destruct (varlenDecode (from 36 data) (rc + 36)) as [[[len d1] rc1] |] eqn:E2;
      [| discriminate].
    cbn [rbind] in H.
    destruct (unpack fmt_L (slice len (len + 4) d1)) as [sq |] eqn:E3; [| discriminate].
    cbn [rbind] in H.
    pose proof (varlenDecode_nonneg _ _ _ _ _ E2) as Hlen.
    pose proof (varlenDecode_rc _ _ _ _ _ E2) as [Hrc1 _].
    pose proof (read_inputs_rc _ _ _ _ _ _ _ H) as [Hrc' _].
    rewrite slice_upto, E1 by lia. cbn [rbind].
    rewrite upto_upto, from_upto by lia.
    rewrite varlenDecode_cut with (1 := E2) by lia. cbn [rbind].
    rewrite slice_upto, E3 by lia. cbn [rbind].
    rewrite upto_upto, from_upto by lia.
    rewrite IH with (1 := H) by lia.
    cut_done.
Qed.

Lemma read_outputs_cut (n : nat) :
  forall data rc acc outs d' rc' K,
    read_outputs n data rc acc = Ok (outs, d', rc') ->
    rc' - rc <= K ->
    read_outputs n (upto K data) rc acc
    = Ok (outs, upto (K - (rc' - rc)) d', rc').
Proof.
  induction n as [| n IH]; intros data rc acc outs d' rc' K H HK.
  - simpl in *. injection H as <- <- <-.
    rewrite Z.sub_diag, Z.sub_0_r. reflexivity.
  - cbn [read_outputs] in *.
    destruct (unpack fmt_Q (upto 8 data)) as [a |] eqn:E1; [| discriminate].
    cbn [rbind] in H.
    destruct (varlenDecode (from 8 data) (rc + 8)) as [[[len d1] rc1] |] eqn:E2;
      [| discriminate].
    cbn [rbind] in H.
    pose proof (varlenDecode_nonneg _ _ _ _ _ E2) as Hlen.
    pose proof (varlenDecode_rc _ _ _ _ _ E2) as [Hrc1 _].
    pose proof (read_outputs_rc _ _ _ _ _ _ _ H) as [Hrc' _].
    rewrite upto_upto, E1 by lia. cbn [rbind].
    rewrite from_upto by lia.
    rewrite varlenDecode_cut with (1 := E2) by lia. cbn [rbind].
    rewrite upto_upto, from_upto by lia.
    rewrite IH with (1 := H) by lia.
    cut_done.
Qed.

Lemma parse_cut (d : bytes) (K : Z) v ins outs d4 rc :
  parse d = Ok (v, ins, outs, d4, rc) ->
  rc <= K ->
  parse (upto K d) = Ok (v, ins, outs, upto (K - rc) d4, rc).
Proof.
  unfold parse. intros H HK.
  destruct (unpack fmt_L (upto 4 d)) as [v1 |] eqn:E1; [| discriminate].
  cbn [rbind] in H.
  destruct (varlenDecode (from 4 d) 4) as [[[ic d1] rc1] |] eqn:E2; [| discriminate].
  cbn [rbind] in H.
  destruct (read_inputs (Z.to_nat ic) d1 rc1 []) as [[[ins1 d2] rc2] |] eqn:E3;
    [| discriminate].
  cbn [rbind] in H.
  destruct (varlenDecode d2 rc2) as [[[oc d3] rc3] |] eqn:E4; [| discriminate].
  cbn [rbind] in H.
  destruct (read_outputs (Z.to_nat oc) d3 rc3 []) as [[[outs1 d4'] rc4] |] eqn:E5;
    [| discriminate].
  cbn [rbind] in H. injection H as <- <- <- <- <-.
  pose proof (varlenDecode_rc _ _ _ _ _ E2) as [H2 _].
  pose proof (read_inputs_rc _ _ _ _ _ _ _ E3) as [H3 _].
  pose proof (varlenDecode_rc _ _ _ _ _ E4) as [H4 _].
  pose proof (read_outputs_rc _ _ _ _ _ _ _ E5) as [H5 _].
  rewrite upto_upto, E1 by lia. cbn [rbind].
  rewrite from_upto by lia.
  rewrite varlenDecode_cut with (1 := E2) by lia. cbn [rbind].
  rewrite read_inputs_cut with (1 := E3) by lia. cbn [rbind].
  rewrite varlenDecode_cut with (1 := E4) by lia. cbn [rbind].
  rewrite read_outputs_cut with (1 := E5) by lia. cbn [rbind].
  cut_done.
Qed.

(** ** The two modes of [disassemble] *)

Lemma disassemble_modes_Raise (t : Txn) (d : bytes) (e : exn) :
  data t = Some d ->
  parse d = Raise e ->
  disassemble true t = disassemble false t.
Proof.
  destruct t as [d0 h0 v0 i0 o0 l0]. cbn [data]. intros ->.
  unfold parse, disassemble. run.
  destruct (unpack fmt_L (upto 4 d)) as [v1 |]; run; [| reflexivity].
  destruct (varlenDecode (from 4 d) 4) as [[[ic d1] rc1] |]; run; [| reflexivity].
  destruct (read_inputs (Z.to_nat ic) d1 rc1 []) as [[[ins1 d2] rc2] |]; run;
    [| reflexivity].
  destruct (varlenDecode d2 rc2) as [[[oc d3] rc3] |]; run; [| reflexivity].
  destruct (read_outputs (Z.to_nat oc) d3 rc3 []) as [[[outs1 d4'] rc4] |]; run;
    [| reflexivity].
  discriminate.
Qed.

(** The tolerant mode, once the reads have succeeded and the locktime is
    there: the assert on line 104 holds. *)
Lemma finish_retExtra (d : bytes) (t : Txn) v ins outs d4 rc l :
  parse d = Ok (v, ins, outs, d4, rc) ->
  unpack fmt_L (upto 4 d4) = Ok l ->
  finish true d t v ins outs d4 rc
  = (with_data (upto (rc + 4) d)
       (with_locktime l
          (with_outputs outs (with_inputs (PyList ins) (with_version v t)))),
     Ok (Some (from (rc + 4) d))).
Proof.
  intros Hp Hu. destruct (parse_rc _ _ _ _ _ _ Hp) as [Hrc Hfrom].
  unfold finish. rewrite Hu, <- Hfrom, bytes_eqb_refl.
  rewrite Hfrom, from_from by lia. reflexivity.
Qed.

(** The only exceptions of [disassemble(retExtra=True)] are AttributeError
    on an object without raw bytes and those of a read past the end of the
    buffer: the consistency assert on line 104 never fails. *)
Theorem disassemble_retExtra_exceptions (t t' : Txn) (e : exn) :
  disassemble true t = (t', Raise e) ->
  (data t = None /\ e = AttributeError) \/ (data t <> None /\ short_read e).
Proof.
  intros H. destruct (data t) as [d |] eqn:Hd.
  2:{ rewrite disassemble_no_data in H by assumption. injection H as _ <-. auto. }
  right. split; [discriminate |].
  destruct (parse d) as [[[[[v ins] outs] d4] rc] | e1] eqn:Hp.
  - rewrite disassemble_parse_Ok with (1 := Hd) (2 := Hp) in H.
    destruct (unpack fmt_L (upto 4 d4)) as [l |] eqn:Hu.
    + rewrite finish_retExtra with (1 := Hp) (2 := Hu) in H. discriminate.
    + unfold finish in H. rewrite Hu in H. injection H as _ <-.
      apply unpack_Raise in Hu as [-> _]. now left.
  - destruct (disassemble_parse_Raise true t d e1 Hd Hp) as (t1 & Ht1 & _).
    rewrite Ht1 in H. injection H as _ <-. eapply parse_Raise, Hp.
Qed.

(** What the default mode does is read off the tolerant mode: the same
    exception and object when the tolerant mode raises; when it returns the
    bytes left, the same fields and hash, with [None] returned if nothing is
    left and AssertionError raised otherwise. *)
Theorem disassemble_modes (t : Txn) :
  match disassemble true t with
  | (t1, Raise e) => disassemble false t = (t1, Raise e)
  | (t1, Ok None) => False
  | (t1, Ok (Some extra)) =>
      exists t2,
        disassemble false t
        = (t2, match extra with
               | [] => Ok None
               | _ :: _ => Raise AssertionError
               end)
        /\ version t1 = version t2 /\ inputs t1 = inputs t2
        /\ outputs t1 = outputs t2 /\ locktime t1 = locktime t2
        /\ txid t1 = txid t2 /\ data t2 = data t
  end.
Proof.
  destruct (data t) as [d |] eqn:Hd.
  2:{ now rewrite !disassemble_no_data. }
  destruct (parse d) as [[[[[v ins] outs] d4] rc] | e1] eqn:Hp.
  2:{ rewrite <- disassemble_modes_Raise with (1 := Hd) (2 := Hp).
      destruct (disassemble_parse_Raise true t d e1 Hd Hp) as (t1 & -> & _).
      reflexivity. }
  rewrite !disassemble_parse_Ok with (1 := Hd) (2 := Hp).
  destruct (unpack fmt_L (upto 4 d4)) as [l |] eqn:Hu.
  2:{ unfold finish. rewrite Hu. reflexivity. }
  rewrite finish_retExtra with (1 := Hp) (2 := Hu).
  destruct (parse_rc _ _ _ _ _ _ Hp) as [Hrc Hfrom].
  pose proof (proj1 (unpack_Ok _ _ _) Hu) as [Hl _].
  apply (upto_full 4) in Hl; [| lia].
  unfold finish. rewrite Hu.
  eexists. split.
  - replace (from (rc + 4) d) with (from 4 d4)
      by (rewrite Hfrom, from_from by lia; reflexivity).
    destruct (from 4 d4) as [| x0 rest] eqn:Hrest.
    + replace (Nat.eqb (length d4) 4) with true; [reflexivity |].
      symmetry. apply Nat.eqb_eq.
      apply (f_equal (@length byte)) in Hrest. rewrite length_from in Hrest.
      simpl in Hrest. lia.
    + replace (Nat.eqb (length d4) 4) with false; [reflexivity |].
      symmetry. apply Nat.eqb_neq.
      apply (f_equal (@length byte)) in Hrest. rewrite length_from in Hrest.
      simpl in Hrest. lia.
  - destruct t. cbn. repeat split. cbn in Hd. now rewrite Hd.
Qed.

(** When [disassemble(retExtra=True)] returns, the raw bytes it started from
    are the raw bytes it leaves followed by the bytes it returns, and what
    it leaves is one complete transaction: the default mode accepts it. *)
Theorem disassemble_retExtra_splits (t t' : Txn) (r : option bytes) :
  disassemble true t = (t', Ok r) ->
  exists B extra,
    r = Some extra /\ data t = Some (B ++ extra) /\ data t' = Some B
    /\ decodes B.
Proof.
  intros H. destruct (data t) as [d |] eqn:Hd.
  2:{ rewrite disassemble_no_data in H by assumption. discriminate. }
  destruct (parse d) as [[[[[v ins] outs] d4] rc] | e1] eqn:Hp.
  2:{ destruct (disassemble_parse_Raise true t d e1 Hd Hp) as (t1 & Ht1 & _).
      congruence. }
  rewrite disassemble_parse_Ok with (1 := Hd) (2 := Hp) in H.
  destruct (unpack fmt_L (upto 4 d4)) as [l |] eqn:Hu.
  2:{ unfold finish in H. rewrite Hu in H. discriminate. }
  rewrite finish_retExtra with (1 := Hp) (2 := Hu) in H.
  injection H as <- <-.
  exists (upto (rc + 4) d), (from (rc + 4) d).
  split; [reflexivity |]. split; [now rewrite upto_from_join |].
  split; [reflexivity |].
  pose proof (proj1 (unpack_Ok _ _ _) Hu) as [Hl _].
  destruct (parse_rc _ _ _ _ _ _ Hp) as [Hrc _].
  exists (with_data (upto (rc + 4) d) no_attributes). eexists.
  split; [reflexivity |].
  rewrite (disassemble_parse_Ok false
             (with_data (upto (rc + 4) d) no_attributes) _ _ _ _ _ _ eq_refl
             (parse_cut _ (rc + 4) _ _ _ _ _ Hp ltac:(lia))).
  unfold finish. replace (rc + 4 - rc) with 4 by lia.
  rewrite upto_upto, Hu, Hl by lia. reflexivity.
Qed.

(** ** What [assemble] can pack *)

Lemma pow_width (f : fmt) :
  2 ^ (8 * Z.of_nat (width f))
  = match f with
    | fmt_B => 256
    | fmt_H => 65536
    | fmt_L => 2 ^ 32
    | fmt_Q => 2 ^ 64
    end.
Proof. destruct f; reflexivity. Qed.

Lemma pack_cases (f : fmt) (v : Z) :
  (0 <= v < 2 ^ (8 * Z.of_nat (width f))
   /\ pack f v = Ok (le_bytes (width f) v))
  \/ (~ 0 <= v < 2 ^ (8 * Z.of_nat (width f))
      /\ pack f v = Raise struct_error).
Proof.
  unfold pack, in_range.
  destruct (0 <=? v) eqn:E1; [destruct (v <? _) eqn:E2 |]; cbn [andb].
  - left. apply Z.leb_le in E1. apply Z.ltb_lt in E2. auto.
  - right. apply Z.ltb_ge in E2. split; [| reflexivity]. intros [_ H].
    apply Z.lt_nge in H. contradiction.
  - right. apply Z.leb_gt in E1. split; [| reflexivity]. intros [H _].
    apply Z.le_ngt in H. contradiction.
Qed.

Lemma unpack_range (f : fmt) (bs : bytes) (v : Z) :
  unpack f bs = Ok v -> 0 <= v < 2 ^ (8 * Z.of_nat (width f)).
Proof.
  intros H. apply unpack_Ok in H as [Hl ->]. rewrite <- Hl.
  apply le_value_range.
Qed.

Lemma varlenEncode_cases (n : Z) :
  (u64 n /\ exists e, varlenEncode n = Ok e
                      /\ Z.of_nat (length e) = varlen_size n)
  \/ (~ u64 n /\ varlenEncode n = Raise struct_error).
Proof.
  unfold varlenEncode, varlen_size, u64.
  destruct (n <? 0xfd) eqn:E1.
  { apply Z.ltb_lt in E1.
    destruct (pack_cases fmt_B n) as [[Hr ->] | [Hr ->]];
      rewrite pow_width in Hr.
    - left. split; [lia |]. eexists. split; [reflexivity |].
      now rewrite length_le_bytes.
    - right. split; [lia | reflexivity]. }
  apply Z.ltb_ge in E1.
  destruct (n <=? 0xffff) eqn:E2; [| destruct (n <=? 0xffffffff) eqn:E3].
  - apply Z.leb_le in E2.
    destruct (pack_cases fmt_H n) as [[Hr ->] | [Hr ->]];
      rewrite pow_width in Hr; cbn [rbind].
    + left. split; [lia |]. eexists. split; [reflexivity |].
      cbn [length]. now rewrite length_le_bytes.
    + exfalso. lia.
  - apply Z.leb_gt in E2. apply Z.leb_le in E3.
    destruct (pack_cases fmt_L n) as [[Hr ->] | [Hr ->]];
      rewrite pow_width in Hr; cbn [rbind].
    + left. split; [lia |]. eexists. split; [reflexivity |].
      cbn [length]. now rewrite length_le_bytes.
    + exfalso. lia.
  - apply Z.leb_gt in E2. apply Z.leb_gt in E3.
    destruct (pack_cases fmt_Q n) as [[Hr ->] | [Hr ->]];
      rewrite pow_width in Hr; cbn [rbind].
    + left. split; [lia |]. eexists. split; [reflexivity |].
      cbn [length]. now rewrite length_le_bytes.
    + right. split; [lia | reflexivity].
Qed.

(** Refutes [Forall packable_in (i :: _)] or [Forall packable_out (o :: _)]
    from the component of the head that is out of range. *)
Ltac head_unpackable :=
  let H := fresh in
  split; [| reflexivity]; intros H; inversion H; subst;
  unfold packable_in, packable_out, u32, u64 in *; cbn [fst snd] in *; tauto.

Lemma write_inputs_cases (ins : list txin) :
  (Forall packable_in ins
   /\ exists body, write_inputs ins [] = Ok body
                   /\ Z.of_nat (length body) = total in_size ins)
  \/ (~ Forall packable_in ins /\ write_inputs ins [] = Raise struct_error).
Proof.
  induction ins as [| [[[h ix] s] q] ins IH].
  - left. split; [constructor |]. exists []. split; reflexivity.
  - cbn [write_inputs fst snd].
    destruct (pack_cases fmt_L ix) as [[Hix ->] | [Hix ->]];
      rewrite pow_width in Hix; cbn [rbind]; [| right; head_unpackable].
    destruct (varlenEncode_cases (Z.of_nat (length s)))
      as [[Hs (e & -> & He)] | [Hs ->]]; cbn [rbind];
      [| right; head_unpackable].
    destruct (pack_cases fmt_L q) as [[Hq ->] | [Hq ->]];
      rewrite pow_width in Hq; cbn [rbind]; [| right; head_unpackable].
    rewrite write_inputs_acc.
    destruct IH as [[Hall (body & -> & Hb)] | [Hall ->]].
    + left. split.
      * constructor; [| exact Hall]. unfold packable_in, u32. cbn [fst snd].
        auto.
      * eexists. split; [reflexivity |].
        cbn [total fold_right]. fold (total in_size ins).
        rewrite <- Hb. unfold in_size. cbn [fst snd app].
        rewrite !length_app, !length_le_bytes. cbn [width]. lia.
    + right. split; [| reflexivity]. intros H. inversion H. contradiction.
Qed.

Lemma write_outputs_cases (outs : list txout) :
  (Forall packable_out outs
   /\ exists body, write_outputs outs [] = Ok body
                   /\ Z.of_nat (length body) = total out_size outs)
  \/ (~ Forall packable_out outs /\ write_outputs outs [] = Raise struct_error).
Proof.
  induction outs as [| [a s] outs IH].
  - left. split; [constructor |]. exists []. split; reflexivity.
  - cbn [write_outputs].
    destruct (pack_cases fmt_Q a) as [[Ha ->] | [Ha ->]];
      rewrite pow_width in Ha; cbn [rbind]; [| right; head_unpackable].
    destruct (varlenEncode_cases (Z.of_nat (length s)))
      as [[Hs (e & -> & He)] | [Hs ->]]; cbn [rbind];
      [| right; head_unpackable].
    rewrite write_outputs_acc.
    destruct IH as [[Hall (body & -> & Hb)] | [Hall ->]].
    + left. split.
      * constructor; [| exact Hall]. unfold packable_out, u64. cbn [fst snd].
        auto.
      * eexists. split; [reflexivity |].
        cbn [total fold_right]. fold (total out_size outs).
        rewrite <- Hb. unfold out_size. cbn [fst snd app].
        rewrite !length_app, !length_le_bytes. cbn [width]. lia.
    + right. split; [| reflexivity]. intros H. inversion H. contradiction.
Qed.

Lemma encode_cases (v : Z) (ins : list txin) (outs : list txout) (l : Z) :
  (packable v ins outs l
   /\ exists B, encode v ins outs l = Ok B
                /\ Z.of_nat (length B) = tx_size ins outs)
  \/ (~ packable v ins outs l /\ encode v ins outs l = Raise struct_error).
Proof.
  unfold encode, packable, tx_size.
  destruct (pack_cases fmt_L v) as [[Hv ->] | [Hv ->]];
    rewrite pow_width in Hv; cbn [rbind].
  2:{ right. split; [| reflexivity]. intros H. apply Hv, H. }
  destruct (varlenEncode_cases (Z.of_nat (length ins)))
    as [[Hni (ni & -> & Hlni)] | [Hni ->]]; cbn [rbind].
  2:{ right. split; [| reflexivity]. intros H. apply Hni, H. }
  rewrite write_inputs_acc.
  destruct (write_inputs_cases ins) as [[Hi (bi & -> & Hlbi)] | [Hi ->]];
    cbn [rbind].
  2:{ right. split; [| reflexivity]. intros H. apply Hi, H. }
  destruct (varlenEncode_cases (Z.of_nat (length outs)))
    as [[Hno (no & -> & Hlno)] | [Hno ->]]; cbn [rbind].
  2:{ right. split; [| reflexivity]. intros H. apply Hno, H. }
  rewrite write_outputs_acc.
  destruct (write_outputs_cases outs) as [[Ho (bo & -> & Hlbo)] | [Ho ->]];
    cbn [rbind].
  2:{ right. split; [| reflexivity]. intros H. apply Ho, H. }
  destruct (pack_cases fmt_L l) as [[Hl ->] | [Hl ->]];
    rewrite pow_width in Hl; cbn [rbind].
  2:{ right. split; [| reflexivity]. intros H. apply Hl, H. }
  left. split; [unfold u32; tauto |].
  eexists. split; [reflexivity |].
  rewrite !length_app, !length_le_bytes. cbn [width]. lia.
Qed.

(** ** The fields [disassemble] stores *)

Lemma varlenDecode_u64 (b : bytes) (rc : Z) v b' rc' :
  varlenDecode b rc = Ok (v, b', rc') -> u64 v.
Proof.
  destruct b as [| b0 r]; [discriminate |]. unfold varlenDecode, u64.
  destruct (byte_to_Z b0 =? 0xff);
    [| destruct (byte_to_Z b0 =? 0xfe); [| destruct (byte_to_Z b0 =? 0xfd)]].
  1-3: destruct (unpack _ _) as [v0 |] eqn:E; [| discriminate];
       apply unpack_range in E; rewrite pow_width in E; cbn [rbind];
       intros H; injection H as <- _ _; lia.
  intros H. injection H as <- _ _. pose proof (byte_to_Z_range b0). lia.
Qed.

Lemma length_upto_le {A} (n : Z) (l : list A) :
  0 <= n -> Z.of_nat (length (upto n l)) <= n.
Proof. intros H. rewrite length_upto. lia. Qed.

Lemma read_inputs_wf (n : nat) :
  forall data rc acc ins d' rc',
    read_inputs n data rc acc = Ok (ins, d', rc') ->
    Forall (fun i => packable_in i /\ hash32 i) acc ->
    Forall (fun i => packable_in i /\ hash32 i) ins
    /\ length ins = (length acc + n)%nat.
Proof.
  induction n as [| n IH]; intros data rc acc ins d' rc' H Hacc.
  - simpl in H. injection H as <- _ _. split; [assumption | lia].
  - cbn [read_inputs] in H.
    destruct (unpack fmt_L (slice 32 36 data)) as [ix |] eqn:E1; [| discriminate].
    cbn [rbind] in H.
    destruct (varlenDecode (from 36 data) (rc + 36)) as [[[len d1] rc1] |] eqn:E2;
      [| discriminate].
    cbn [rbind] in H.
    destruct (unpack fmt_L (slice len (len + 4) d1)) as [sq |] eqn:E3; [| discriminate].
    cbn [rbind] in H.
    apply IH in H.
    + destruct H as [H ->]. split; [exact H |]. rewrite length_app. simpl. lia.
    + apply Forall_app. split; [exact Hacc |]. constructor; [| constructor].
      pose proof (unpack_range _ _ _ E1) as R1. rewrite pow_width in R1.
      pose proof (unpack_range _ _ _ E3) as R3. rewrite pow_width in R3.
      pose proof (varlenDecode_u64 _ _ _ _ _ E2) as Rl. unfold u64 in Rl.
      pose proof (length_upto_le len d1 (proj1 Rl)).
      pose proof (proj1 (unpack_Ok _ _ _) E1) as [Hl1 _].
      apply (slice_full 32 36) in Hl1; [| lia | lia].
      unfold packable_in, hash32, u32, u64. cbn [fst snd].
      rewrite !length_upto. repeat split; lia.
Qed.

Lemma read_outputs_wf (n : nat) :
  forall data rc acc outs d' rc',
    read_outputs n data rc acc = Ok (outs, d', rc') ->
    Forall packable_out acc ->
    Forall packable_out outs /\ length outs = (length acc + n)%nat.
Proof.
  induction n as [| n IH]; intros data rc acc outs d' rc' H Hacc.
  - simpl in H. injection H as <- _ _. split; [assumption | lia].
  - cbn [read_outputs] in H.
    destruct (unpack fmt_Q (upto 8 data)) as [a |] eqn:E1; [| discriminate].
    cbn [rbind] in H.
    destruct (varlenDecode (from 8 data) (rc + 8)) as [[[len d1] rc1] |] eqn:E2;
      [| discriminate].
    cbn [rbind] in H.
    apply IH in H.
    + destruct H as [H ->]. split; [exact H |]. rewrite length_app. simpl. lia.
    + apply Forall_app. split; [exact Hacc |]. constructor; [| constructor].
      pose proof (unpack_range _ _ _ E1) as R1. rewrite pow_width in R1.
      pose proof (varlenDecode_u64 _ _ _ _ _ E2) as Rl. unfold u64 in Rl.
      pose proof (length_upto_le len d1 (proj1 Rl)).
      unfold packable_out, u64. cbn [fst snd]. repeat split; lia.
Qed.

Lemma parse_wf (d : bytes) v ins outs d4 rc :
  parse d = Ok (v, ins, outs, d4, rc) ->
  u32 v /\ u64 (Z.of_nat (length ins)) /\ Forall packable_in ins
  /\ Forall hash32 ins
  /\ u64 (Z.of_nat (length outs)) /\ Forall packable_out outs.
Proof.
  unfold parse. intros H.
  destruct (unpack fmt_L (upto 4 d)) as [v1 |] eqn:E1; [| discriminate].
  cbn [rbind] in H.
  destruct (varlenDecode (from 4 d) 4) as [[[ic d1] rc1] |] eqn:E2; [| discriminate].
  cbn [rbind] in H.
  destruct (read_inputs (Z.to_nat ic) d1 rc1 []) as [[[ins1 d2] rc2] |] eqn:E3;
    [| discriminate].
  cbn [rbind] in H.
  destruct (varlenDecode d2 rc2) as [[[oc d3] rc3] |] eqn:E4; [| discriminate].
  cbn [rbind] in H.
  destruct (read_outputs (Z.to_nat oc) d3 rc3 []) as [[[outs1 d4'] rc4] |] eqn:E5;
    [| discriminate].
  cbn [rbind] in H. injection H as <- <- <- _ _.
  apply unpack_range in E1. rewrite pow_width in E1.
  apply varlenDecode_u64 in E2. apply varlenDecode_u64 in E4.
  apply read_inputs_wf in E3; [| constructor]. destruct E3 as [Hins Hli].
  apply read_outputs_wf in E5; [| constructor]. destruct E5 as [Houts Hlo].
  unfold u64 in *. simpl in Hli, Hlo.
  repeat split; try (exact E1) || lia.
  - eapply Forall_impl; [| exact Hins]. intros i Hi. apply Hi.
  - eapply Forall_impl; [| exact Hins]. intros i Hi. apply Hi.
  - exact Houts.
Qed.

(** A successful [disassemble], taken apart. *)
Lemma disassemble_Ok_inv (retExtra : bool) (t t' : Txn) (x : option bytes) :
  disassemble retExtra t = (t', Ok x) ->
  exists d v ins outs d4 rc l,
    data t = Some d
    /\ parse d = Ok (v, ins, outs, d4, rc)
    /\ unpack fmt_L (upto 4 d4) = Ok l
    /\ version t' = Some v /\ inputs t' = Some (PyList ins)
    /\ outputs t' = Some outs /\ locktime t' = Some l.
Proof.
  intros H. destruct (data t) as [d |] eqn:Hd.
  2:{ rewrite disassemble_no_data in H by assumption. discriminate. }
  destruct (parse d) as [[[[[v ins] outs] d4] rc] | e1] eqn:Hp.
  2:{ destruct (disassemble_parse_Raise retExtra t d e1 Hd Hp) as (t1 & Ht1 & _).
      congruence. }
  rewrite disassemble_parse_Ok with (1 := Hd) (2 := Hp) in H.
  unfold finish in H.
  destruct (unpack fmt_L (upto 4 d4)) as [l |] eqn:Hu; [| discriminate].
  exists d, v, ins, outs, d4, rc, l.
  split; [assumption || reflexivity |].
  split; [assumption || reflexivity |].
  split; [assumption || reflexivity |].
  destruct retExtra.
  - destruct (bytes_eqb d4 (from rc d)); [| discriminate].
    injection H as <- _. repeat split.
  - destruct (Nat.eqb (length d4) 4); [| discriminate].
    injection H as <- _. repeat split.
Qed.

(** After a successful [disassemble], in either mode, all four fields are
    there, the inputs are a list, every previous-output hash has 32 bytes
    and every number is in the range of the format it was read with. *)
Theorem disassemble_fields_packable (retExtra : bool) (t t' : Txn)
  (x : option bytes) :
  disassemble retExtra t = (t', Ok x) ->
  exists v ins outs l,
    version t' = Some v /\ inputs t' = Some (PyList ins)
    /\ outputs t' = Some outs /\ locktime t' = Some l
    /\ packable v ins outs l /\ Forall hash32 ins.
Proof.
  intros H.
  apply disassemble_Ok_inv in H
    as (d & v & ins & outs & d4 & rc & l & _ & Hp & Hu & Hv & Hi & Ho & Hl).
  exists v, ins, outs, l. repeat split; try assumption.
  all: apply parse_wf in Hp as (H1 & H2 & H3 & H4 & H5 & H6);
    apply unpack_range in Hu; rewrite pow_width in Hu;
    unfold u32, u64 in *; try assumption; lia.
Qed.


(** ** [assemble] *)

(** On an object that has its four fields, [assemble] succeeds exactly when
    version, locktime, previous-output indexes and sequence numbers fit 32
    bits and amounts, script lengths and the two counts fit 64 bits; it
    does not look at the length of a previous-output hash. Otherwise it
    raises struct.error and leaves the object as it was. *)
Theorem assemble_Ok_iff (t : Txn) v ins outs l :
  version t = Some v -> inputs t = Some ins -> outputs t = Some outs ->
  locktime t = Some l ->
  (snd (assemble t) = Ok tt <-> packable v (items ins) outs l)
  /\ (~ packable v (items ins) outs l -> assemble t = (t, Raise struct_error)).
Proof.
  intros Hv Hi Ho Hl.
  rewrite assemble_fields with (1 := Hv) (2 := Hi) (3 := Ho) (4 := Hl).
  destruct (encode_cases v (items ins) outs l) as [[Hp (B & -> & _)] | [Hp ->]];
    cbn [snd].
  - split; [tauto | contradiction].
  - split; [| reflexivity]. split; [discriminate | contradiction].
Qed.

(** The number of bytes [assemble] stores: 4 for the version, the two
    counts as variable-length integers, for each input its hash, 4, the
    script with its length and 4, for each output 8 and the script with its
    length, and 4 for the locktime. *)
Theorem assemble_size (t t' : Txn) (ins : pyseq txin) (outs : list txout) :
  assemble t = (t', Ok tt) ->
  inputs t = Some ins -> outputs t = Some outs ->
  exists B, data t' = Some B
            /\ Z.of_nat (length B) = tx_size (items ins) outs.
Proof.
  intros Ha Hi Ho.
  destruct (assemble_Ok_fields _ _ Ha) as (v & ins' & outs' & l & Hv & Hi' & Ho' & Hl).
  rewrite Hi in Hi'. injection Hi' as <-. rewrite Ho in Ho'. injection Ho' as <-.
  rewrite assemble_fields with (1 := Hv) (2 := Hi) (3 := Ho) (4 := Hl) in Ha.
  destruct (encode_cases v (items ins) outs l) as [[_ (B & He & Hs)] | [_ He]];
    rewrite He in Ha; [| discriminate].
  injection Ha as <-. exists B. split; [reflexivity | exact Hs].
Qed.

(** [assemble] is all or nothing: when it raises, the object is untouched;
    when it returns, only the raw bytes and the hash were assigned, and the
    hash is the double hash of the raw bytes. *)
Theorem assemble_all_or_nothing (t : Txn) :
  match assemble t with
  | (t', Raise _) => t' = t
  | (t', Ok _) => exists B, t' = with_txid (dblsha B) (with_data B t)
  end.
Proof.
  destruct t as [d0 h0 v0 i0 o0 l0]. unfold assemble, idhash. run.
  destruct v0 as [v |]; [| reflexivity]. run.
  destruct (pack fmt_L v) as [pv |]; [| reflexivity]. run.
  destruct i0 as [ins |]; [| reflexivity]. run.
  destruct (varlenEncode (Z.of_nat (length (items ins)))) as [nin |];
    [| reflexivity]. run.
  destruct (write_inputs (items ins) (pv ++ nin)) as [d1 |]; [| reflexivity]. run.
  destruct o0 as [outs |]; [| reflexivity]. run.
  destruct (varlenEncode (Z.of_nat (length outs))) as [nout |]; [| reflexivity]. run.
  destruct (write_outputs outs (d1 ++ nout)) as [d2 |]; [| reflexivity]. run.
  destruct l0 as [l |]; [| reflexivity]. run.
  destruct (pack fmt_L l) as [pl |]; [| reflexivity]. run.
  eexists. reflexivity.
Qed.

(** Two objects whose inputs carry 32-byte hashes and for which [assemble]
    stores the same bytes have the same version, inputs, outputs and
    locktime. *)
Theorem assemble_injective (t1 t1' t2 t2' : Txn) (B : bytes)
  (ins1 ins2 : pyseq txin) :
  assemble t1 = (t1', Ok tt) -> assemble t2 = (t2', Ok tt) ->
  data t1' = Some B -> data t2' = Some B ->
  inputs t1 = Some ins1 -> inputs t2 = Some ins2 ->
  Forall hash32 (items ins1) -> Forall hash32 (items ins2) ->
  version t1 = version t2 /\ items ins1 = items ins2
  /\ outputs t1 = outputs t2 /\ locktime t1 = locktime t2.
Proof.
  intros Ha1 Ha2 Hd1 Hd2 Hi1 Hi2 Hh1 Hh2.
  destruct (assemble_Ok_fields _ _ Ha1) as (v1 & i1 & o1 & l1 & Hv1 & Hi1' & Ho1 & Hl1).
  destruct (assemble_Ok_fields _ _ Ha2) as (v2 & i2 & o2 & l2 & Hv2 & Hi2' & Ho2 & Hl2).
  rewrite Hi1 in Hi1'. injection Hi1' as <-.
  rewrite Hi2 in Hi2'. injection Hi2' as <-.
  rewrite assemble_fields with (1 := Hv1) (2 := Hi1) (3 := Ho1) (4 := Hl1) in Ha1.
  rewrite assemble_fields with (1 := Hv2) (2 := Hi2) (3 := Ho2) (4 := Hl2) in Ha2.
  destruct (encode v1 (items ins1) o1 l1) as [B1 |] eqn:E1; [| discriminate].
  destruct (encode v2 (items ins2) o2 l2) as [B2 |] eqn:E2; [| discriminate].
  injection Ha1 as <-. injection Ha2 as <-.
  cbn [data with_txid with_data] in Hd1, Hd2.
  injection Hd1 as ->. injection Hd2 as ->.
  pose (t0 := with_data B no_attributes).
  destruct (disassemble_encoded false t0 _ _ _ _ B Hh1 E1 eq_refl)
    as (a & Ha & Hva & Hia & Hoa & Hla & _).
  destruct (disassemble_encoded false t0 _ _ _ _ B Hh2 E2 eq_refl)
    as (b & Hb & Hvb & Hib & Hob & Hlb & _).
  rewrite Ha in Hb. injection Hb as <-.
  rewrite Hv1, Hv2, Ho1, Ho2, Hl1, Hl2.
  rewrite Hva in Hvb. rewrite Hia in Hib. rewrite Hoa in Hob. rewrite Hla in Hlb.
  injection Hib as Hib. repeat split; congruence.
Qed.

(** ** Coinbase *)

(** When [isCoinbase] returns true there is exactly one input and
    [getCoinbase] returns its script, without touching the object. *)
Theorem isCoinbase_getCoinbase (t t' : Txn) :
  isCoinbase t = (t', Ok true) ->
  exists s script seqno,
    inputs t = Some s
    /\ items s = [((_nullprev, 0xffffffff), script, seqno)]
    /\ getCoinbase t = (t, Ok script).
Proof.
  destruct t as [d0 h0 v0 i0 o0 l0]. unfold isCoinbase, getCoinbase. run.
  destruct i0 as [s |]; [| discriminate]. run.
  destruct (items s) as [| [[p sc] q] [| j rest]] eqn:Hs;
    cbn [length Nat.eqb]; run; try discriminate.
  cbn [fst snd]. intros H. injection H as _ H. apply prevout_eqb_eq in H.
  subst p. exists s, sc, q. rewrite Hs. repeat split.
Qed.

(** [setCoinbase] stores a tuple in [self.inputs]: a following [addInput]
    raises AttributeError (a tuple has no [append]) and leaves the single
    coinbase input in place. *)
Theorem addInput_after_setCoinbase (encodeUNum : N -> bytes) (S : bytes)
  (seqno : Z) (height : option N) (p : prevout) (s : bytes) (q : Z) (t : Txn) :
  let t1 := fst (setCoinbase encodeUNum S seqno height t) in
  addInput p s q t1 = (t1, Raise AttributeError)
  /\ isCoinbase t1 = (t1, Ok true).
Proof.
  destruct t as [d0 h0 v0 i0 o0 l0]. cbv zeta. split; reflexivity.
Qed.

(** ** The hash and the raw bytes, continued *)

Lemma hash_current_same (t t' : Txn) :
  data t' = data t -> txid t' = txid t -> hash_current t -> hash_current t'.
Proof.
  intros Hd Hh H d h. rewrite Hd, Hh. apply H.
Qed.

(** On an object whose hash is the double hash of its raw bytes, that is
    still so after [assemble], after the default [disassemble], after
    [disassemble(retExtra=True)] when it returns no bytes, and after
    [addInput], [addOutput] and [setCoinbase], whether they return or raise:
    these three never assign the raw bytes or the hash. *)
Theorem hash_current_kept (t : Txn) :
  hash_current t ->
  hash_current (fst (assemble t))
  /\ hash_current (fst (disassemble false t))
  /\ (forall t', disassemble true t = (t', Ok (Some [])) -> hash_current t')
  /\ (forall p s q, hash_current (fst (addInput p s q t)))
  /\ (forall a s, hash_current (fst (addOutput a s t)))
  /\ (forall e s q h, hash_current (fst (setCoinbase e s q h t))).
Proof.
  intros Ht.
  split; [now apply assemble_hash_current |].
  split; [now apply disassemble_default_hash_current |].
  split; [| split; [| split]].
  - intros t' H. apply (hash_current_same t); [| | exact Ht].
    + destruct (data t) as [d |] eqn:Hd.
      2:{ rewrite disassemble_no_data in H by assumption. discriminate. }
      destruct (parse d) as [[[[[v ins] outs] d4] rc] | e1] eqn:Hp.
      2:{ destruct (disassemble_parse_Raise true t d e1 Hd Hp) as (t1 & Ht1 & _).
          congruence. }
      rewrite disassemble_parse_Ok with (1 := Hd) (2 := Hp) in H.
      destruct (unpack fmt_L (upto 4 d4)) as [l |] eqn:Hu.
      2:{ unfold finish in H. rewrite Hu in H. discriminate. }
      rewrite finish_retExtra with (1 := Hp) (2 := Hu) in H.
      injection H as <- H. cbn [data with_data]. f_equal.
      rewrite <- (upto_from_join (rc + 4) d) at 2.
      rewrite H. symmetry. apply app_nil_r.
    + replace t' with (fst (disassemble true t)) by now rewrite H.
      apply disassemble_txid.
  - intros p s q. apply (hash_current_same t); [| | exact Ht];
      destruct t as [d0 h0 v0 [[l | l] |] o0 l0]; reflexivity.
  - intros a s. apply (hash_current_same t); [| | exact Ht];
      destruct t as [d0 h0 v0 i0 [o |] l0]; reflexivity.
  - intros e s q h. apply (hash_current_same t); [| | exact Ht];
      destruct t as [d0 h0 v0 i0 o0 l0]; reflexivity.
Qed.

(** ** Decoding again, and encoding followed by decoding *)

Lemma decodes_cut (d : bytes) v ins outs d4 rc l :
  parse d = Ok (v, ins, outs, d4, rc) ->
  unpack fmt_L (upto 4 d4) = Ok l ->
  decodes (upto (rc + 4) d).
Proof.
  intros Hp Hu.
  pose proof (proj1 (unpack_Ok _ _ _) Hu) as [Hl _].
  destruct (parse_rc _ _ _ _ _ _ Hp) as [Hrc _].
  exists (with_data (upto (rc + 4) d) no_attributes). eexists.
  split; [reflexivity |].
  rewrite (disassemble_parse_Ok false
             (with_data (upto (rc + 4) d) no_attributes) _ _ _ _ _ _ eq_refl
             (parse_cut _ (rc + 4) _ _ _ _ _ Hp ltac:(lia))).
  unfold finish. replace (rc + 4 - rc) with 4 by lia.
  rewrite upto_upto, Hu, Hl by lia. reflexivity.
Qed.

(** The default [disassemble] raises AssertionError only on a complete
    transaction followed by at least one more byte. *)
Theorem disassemble_AssertionError_trailing (t t' : Txn) :
  disassemble false t = (t', Raise AssertionError) ->
  exists B extra,
    data t = Some (B ++ extra) /\ extra <> [] /\ decodes B.
Proof.
  intros H. destruct (data t) as [d |] eqn:Hd.
  2:{ rewrite disassemble_no_data in H by assumption. discriminate. }
  destruct (parse d) as [[[[[v ins] outs] d4] rc] | e1] eqn:Hp.
  2:{ destruct (disassemble_parse_Raise false t d e1 Hd Hp) as (t1 & Ht1 & _).
      rewrite Ht1 in H. injection H as _ ->.
      apply parse_Raise in Hp as [Hp | Hp]; discriminate. }
  rewrite disassemble_parse_Ok with (1 := Hd) (2 := Hp) in H.
  unfold finish in H.
  destruct (unpack fmt_L (upto 4 d4)) as [l |] eqn:Hu.
  2:{ apply unpack_Raise in Hu as [Hu _]. congruence. }
  destruct (Nat.eqb (length d4) 4) eqn:Hlen; [discriminate |].
  apply Nat.eqb_neq in Hlen.
  pose proof (proj1 (unpack_Ok _ _ _) Hu) as [Hl _].
  apply (upto_full 4) in Hl; [| lia].
  destruct (parse_rc _ _ _ _ _ _ Hp) as [Hrc Hfrom].
  exists (upto (rc + 4) d), (from (rc + 4) d).
  split; [now rewrite upto_from_join |].
  split; [| eapply decodes_cut; eassumption].
  intros Hnil. apply (f_equal (@length byte)) in Hnil.
  rewrite Hfrom, length_from in Hlen, Hl.
  rewrite length_from in Hnil. simpl in Hnil. lia.
Qed.

(** A successful [disassemble], in terms of the object it leaves: its raw
    bytes are one complete transaction, made of the fields it holds. *)
Lemma disassemble_Ok_complete (retExtra : bool) (t t1 : Txn) (x : option bytes) :
  disassemble retExtra t = (t1, Ok x) ->
  exists B v ins outs e4 rc l,
    parse B = Ok (v, ins, outs, e4, rc)
    /\ length e4 = 4%nat
    /\ unpack fmt_L (upto 4 e4) = Ok l
    /\ t1 = with_data B
              (with_locktime l
                 (with_outputs outs (with_inputs (PyList ins) (with_version v t)))).
Proof.
  intros H. destruct (data t) as [d |] eqn:Hd.
  2:{ rewrite disassemble_no_data in H by assumption. discriminate. }
  destruct (parse d) as [[[[[v ins] outs] d4] rc] | e1] eqn:Hp.
  2:{ destruct (disassemble_parse_Raise retExtra t d e1 Hd Hp) as (t' & Ht' & _).
      congruence. }
  rewrite disassemble_parse_Ok with (1 := Hd) (2 := Hp) in H.
  destruct (unpack fmt_L (upto 4 d4)) as [l |] eqn:Hu.
  2:{ unfold finish in H. rewrite Hu in H. discriminate. }
  pose proof (proj1 (unpack_Ok _ _ _) Hu) as [Hl _].
  destruct (parse_rc _ _ _ _ _ _ Hp) as [Hrc Hfrom].
  destruct retExtra.
  - rewrite finish_retExtra with (1 := Hp) (2 := Hu) in H. injection H as <- _.
    exists (upto (rc + 4) d), v, ins, outs, (upto 4 d4), rc, l.
    split.
    { rewrite parse_cut with (1 := Hp) by lia.
      replace (rc + 4 - rc) with 4 by lia. reflexivity. }
    split; [exact Hl |]. split; [now rewrite upto_upto by lia |].
    destruct t; reflexivity.
  - unfold finish in H. rewrite Hu in H.
    destruct (Nat.eqb (length d4) 4) eqn:Hlen; [| discriminate].
    apply Nat.eqb_eq in Hlen. injection H as <- _.
    exists d, v, ins, outs, d4, rc, l.
    split; [exact Hp |]. split; [exact Hlen |]. split; [exact Hu |].
    destruct t. cbn in Hd. subst. reflexivity.
Qed.

(** Once [disassemble] has succeeded, in either mode, calling it again in
    either mode succeeds, returns no bytes and leaves the object exactly as
    it is. *)
Theorem disassemble_again (retExtra retExtra' : bool) (t t1 : Txn)
  (x : option bytes) :
  disassemble retExtra t = (t1, Ok x) ->
  disassemble retExtra' t1 = (t1, Ok (if retExtra' then Some [] else None)).
Proof.
  intros H.
  apply disassemble_Ok_complete in H
    as (B & v & ins & outs & e4 & rc & l & Hp & Hlen & Hu & ->).
  set (t1 := with_data B _).
  assert (Hd1 : data t1 = Some B) by reflexivity.
  rewrite (disassemble_parse_Ok retExtra' t1 B v ins outs e4 rc Hd1 Hp).
  subst t1. clear Hd1.
  destruct (parse_rc _ _ _ _ _ _ Hp) as [Hrc Hfrom].
  destruct retExtra'.
  - rewrite finish_retExtra with (1 := Hp) (2 := Hu).
    assert (HB : length B = Z.to_nat (rc + 4)).
    { rewrite Hfrom, length_from in Hlen. lia. }
    rewrite upto_all, from_all by lia.
    destruct t; reflexivity.
  - unfold finish. rewrite Hu, Hlen. destruct t; reflexivity.
Qed.

(** After a successful [assemble] on an object whose inputs carry 32-byte
    hashes, [disassemble] in either mode succeeds, returns no bytes, leaves
    the raw bytes and the hash alone and stores the fields [assemble]
    started from (the inputs as a list); a second [assemble] then stores the
    same bytes and hash. *)
Theorem assemble_then_disassemble (retExtra : bool) (t t' : Txn)
  (ins : pyseq txin) :
  assemble t = (t', Ok tt) ->
  inputs t = Some ins -> Forall hash32 (items ins) ->
  exists t'',
    disassemble retExtra t' = (t'', Ok (if retExtra then Some [] else None))
    /\ version t'' = version t /\ inputs t'' = Some (PyList (items ins))
    /\ outputs t'' = outputs t /\ locktime t'' = locktime t
    /\ data t'' = data t' /\ txid t'' = txid t'
    /\ snd (assemble t'') = Ok tt
    /\ data (fst (assemble t'')) = data t'
    /\ txid (fst (assemble t'')) = txid t'.
Proof.
  intros Ha Hi Hh.
  destruct (assemble_Ok_fields _ _ Ha) as (v & ins' & outs & l & Hv & Hi' & Ho & Hl).
  rewrite Hi in Hi'. injection Hi' as <-.
  rewrite assemble_fields with (1 := Hv) (2 := Hi) (3 := Ho) (4 := Hl) in Ha.
  destruct (encode v (items ins) outs l) as [B |] eqn:He; [| discriminate].
  injection Ha as <-.
  destruct (disassemble_encoded retExtra (with_txid (dblsha B) (with_data B t))
              v (items ins) outs l B Hh He eq_refl)
    as (t'' & Hdis & Hv2 & Hi2 & Ho2 & Hl2 & Hd2 & Hh2).
  exists t''. split; [exact Hdis |].
  rewrite assemble_fields with (1 := Hv2) (2 := Hi2) (3 := Ho2) (4 := Hl2).
  cbn [items]. rewrite He. cbn [fst snd data txid with_txid with_data].
  rewrite Hv, Ho, Hl. repeat split; assumption.
Qed.

(** ** These theorems at concrete inputs *)

(** The ten-byte transaction followed by the byte aa, in the tolerant mode. *)
Lemma disassemble_retExtra_trailing_witness :
  exists t',
    disassemble true (fst (construct (Some (Tests.d ++ [xaa]))))
    = (t', Ok (Some [xaa]))
    /\ data t' = Some Tests.d
    /\ txid t' = txid (fst (construct (Some (Tests.d ++ [xaa])))).
Proof.
  apply (disassemble_retExtra_trailing Tests.d [xaa]).
  - exists (fst (construct (Some Tests.d))),
      (fst (disassemble false (fst (construct (Some Tests.d))))).
    split; vm_compute; reflexivity.
  - vm_compute. reflexivity.
Defined.

(** The four bytes 01 00 00 00 in the tolerant mode: IndexError. *)
Lemma disassemble_retExtra_exceptions_witness :
  let t := fst (construct (Some [x01; x00; x00; x00])) in
  (data t = None /\ IndexError = AttributeError)
  \/ (data t <> None /\ short_read IndexError).
Proof.
  cbv zeta.
  apply (disassemble_retExtra_exceptions
           (fst (construct (Some [x01; x00; x00; x00])))
           (fst (disassemble true (fst (construct (Some [x01; x00; x00; x00])))))).
  vm_compute. reflexivity.
Defined.

(** The same eleven bytes, split into the transaction and the byte left. *)
Lemma disassemble_retExtra_splits_witness :
  exists B extra,
    Some [xaa] = Some extra
    /\ data (fst (construct (Some (Tests.d ++ [xaa])))) = Some (B ++ extra)
    /\ data (fst (disassemble true (fst (construct (Some (Tests.d ++ [xaa]))))))
       = Some B
    /\ decodes B.
Proof.
  apply (disassemble_retExtra_splits (fst (construct (Some (Tests.d ++ [xaa]))))).
  vm_compute. reflexivity.
Defined.

(** The decode of the 71-byte transaction of lines 154-157. *)
Lemma disassemble_fields_packable_witness :
  let t' := fst (disassemble false (fst Tests.run_built)) in
  exists v ins outs l,
    version t' = Some v /\ inputs t' = Some (PyList ins)
    /\ outputs t' = Some outs /\ locktime t' = Some l
    /\ packable v ins outs l /\ Forall hash32 ins.
Proof.
  cbv zeta.
  apply (disassemble_fields_packable false (fst Tests.run_built) _ None).
  vm_compute. reflexivity.
Defined.


(** The object of lines 154-156, whose numbers all fit. *)
Lemma assemble_Ok_iff_witness :
  let ins := PyList [((repeat x20 32, 0), Tests.INPUT, 0xffffffff)] in
  let outs := [(0x10000, Tests.OUTPUT)] in
  (snd (assemble Tests.fields_built) = Ok tt <-> packable 1 (items ins) outs 0)
  /\ (~ packable 1 (items ins) outs 0
      -> assemble Tests.fields_built = (Tests.fields_built, Raise struct_error)).
Proof.
  cbv zeta. apply assemble_Ok_iff; reflexivity.
Defined.

(** The size of the bytes [assemble] stores for that object. *)
Lemma assemble_size_witness :
  exists B,
    data (fst Tests.run_built) = Some B
    /\ Z.of_nat (length B)
       = tx_size (items (PyList [((repeat x20 32, 0), Tests.INPUT, 0xffffffff)]))
           [(0x10000, Tests.OUTPUT)].
Proof.
  apply (assemble_size Tests.fields_built).
  - vm_compute. reflexivity.
  - reflexivity.
  - reflexivity.
Defined.

(** The object of lines 154-156 before and after its first [assemble]. *)
Lemma assemble_injective_witness :
  let ins := PyList [((repeat x20 32, 0), Tests.INPUT, 0xffffffff)] in
  version Tests.fields_built = version (fst Tests.run_built)
  /\ items ins = items ins
  /\ outputs Tests.fields_built = outputs (fst Tests.run_built)
  /\ locktime Tests.fields_built = locktime (fst Tests.run_built).
Proof.
  cbv zeta.
  apply (assemble_injective Tests.fields_built (fst Tests.run_built)
           (fst Tests.run_built) (fst (assemble (fst Tests.run_built)))
           Tests.built).
  1-6: vm_compute; reflexivity.
  all: repeat constructor.
Defined.

(** The coinbase input of line 164. *)
Lemma isCoinbase_getCoinbase_witness :
  let t := with_inputs
             (PyTuple [((_nullprev, 0xffffffff), Tests.COINBASE, 0xffffffff)])
             new in
  exists s script seqno,
    inputs t = Some s
    /\ items s = [((_nullprev, 0xffffffff), script, seqno)]
    /\ getCoinbase t = (t, Ok script).
Proof.
  cbv zeta. eapply isCoinbase_getCoinbase. reflexivity.
Defined.

(** The object [Txn(d)] of line 148. *)
Lemma hash_current_kept_witness :
  let t := fst (construct (Some Tests.d)) in
  hash_current (fst (assemble t))
  /\ hash_current (fst (disassemble false t))
  /\ (forall t', disassemble true t = (t', Ok (Some [])) -> hash_current t')
  /\ (forall p s q, hash_current (fst (addInput p s q t)))
  /\ (forall a s, hash_current (fst (addOutput a s t)))
  /\ (forall e s q h, hash_current (fst (setCoinbase e s q h t))).
Proof.
  cbv zeta. apply hash_current_kept. apply construct_hash_current.
Defined.

(** The eleven bytes again, in the default mode. *)
Lemma disassemble_AssertionError_trailing_witness :
  exists B extra,
    data (fst (construct (Some (Tests.d ++ [xaa])))) = Some (B ++ extra)
    /\ extra <> [] /\ decodes B.
Proof.
  apply (disassemble_AssertionError_trailing
           (fst (construct (Some (Tests.d ++ [xaa]))))
           (fst (disassemble false (fst (construct (Some (Tests.d ++ [xaa]))))))).
  vm_compute. reflexivity.
Defined.

(** A default decode after the tolerant decode of the eleven bytes. *)
Lemma disassemble_again_witness :
  let t1 := fst (disassemble true (fst (construct (Some (Tests.d ++ [xaa]))))) in
  disassemble false t1 = (t1, Ok None).
Proof.
  cbv zeta.
  apply (disassemble_again true false
           (fst (construct (Some (Tests.d ++ [xaa]))))
           _ (Some [xaa])).
  vm_compute. reflexivity.
Defined.

(** Encoding the object of lines 154-156 and decoding the result. *)
Lemma assemble_then_disassemble_witness :
  let ins := PyList [((repeat x20 32, 0), Tests.INPUT, 0xffffffff)] in
  exists t'',
    disassemble false (fst Tests.run_built) = (t'', Ok None)
    /\ version t'' = version Tests.fields_built
    /\ inputs t'' = Some (PyList (items ins))
    /\ outputs t'' = outputs Tests.fields_built
    /\ locktime t'' = locktime Tests.fields_built
    /\ data t'' = data (fst Tests.run_built)
    /\ txid t'' = txid (fst Tests.run_built)
    /\ snd (assemble t'') = Ok tt
    /\ data (fst (assemble t'')) = data (fst Tests.run_built)
    /\ txid (fst (assemble t'')) = txid (fst Tests.run_built).
Proof.
  cbv zeta.
  apply (assemble_then_disassemble false Tests.fields_built).
  - vm_compute. reflexivity.
  - reflexivity.
  - repeat constructor.
Defined.

(** ** [assemble] and the wire layout of the specification *)

Lemma pack_fits (f : fmt) (v : Z) :
  0 <= v < match f with
           | fmt_B => 256
           | fmt_H => 65536
           | fmt_L => 2 ^ 32
           | fmt_Q => 2 ^ 64
           end ->
  pack f v = Ok (le_bytes (width f) v).
Proof.
  intros H. apply pack_in_range. rewrite pow_width. exact H.
Qed.

Lemma varlenEncode_compact (n : Z) :
  u64 n -> varlenEncode n = Ok (compact_size n).
Proof.
  unfold u64, varlenEncode, compact_size. intros H.
  destruct (n <? 0xfd) eqn:E1.
  { apply Z.ltb_lt in E1. rewrite pack_fits by lia. reflexivity. }
  apply Z.ltb_ge in E1.
  destruct (n <=? 0xffff) eqn:E2; [| destruct (n <=? 0xffffffff) eqn:E3].
  - apply Z.leb_le in E2. rewrite pack_fits by lia. reflexivity.
  - apply Z.leb_le in E3. rewrite pack_fits by lia. reflexivity.
  - rewrite pack_fits by lia. reflexivity.
Qed.

Lemma write_inputs_wire (ins : list txin) :
  Forall packable_in ins ->
  write_inputs ins [] = Ok (concat (map wire_input ins)).
Proof.
  induction 1 as [| [[[h ix] s] q] ins Hp _ IH]; [reflexivity |].
  destruct Hp as (Hix & Hs & Hq). unfold u32 in Hix, Hq. cbn [fst snd] in *.
  cbn [write_inputs fst snd map concat wire_input].
  rewrite pack_fits by exact Hix. cbn [rbind].
  rewrite varlenEncode_compact by exact Hs. cbn [rbind].
  rewrite pack_fits by exact Hq. cbn [rbind].
  rewrite write_inputs_acc, IH. cbn [width app].
  f_equal; now rewrite <- ?app_assoc.
Qed.

Lemma write_outputs_wire (outs : list txout) :
  Forall packable_out outs ->
  write_outputs outs [] = Ok (concat (map wire_output outs)).
Proof.
  induction 1 as [| [a s] outs Hp _ IH]; [reflexivity |].
  destruct Hp as (Ha & Hs). unfold u64 in Ha. cbn [fst snd] in *.
  cbn [write_outputs map concat wire_output].
  rewrite pack_fits by exact Ha. cbn [rbind].
  rewrite varlenEncode_compact by exact Hs. cbn [rbind].
  rewrite write_outputs_acc, IH. cbn [width app].
  f_equal; now rewrite <- ?app_assoc.
Qed.

(** What [assemble] builds from fields in range is, byte for byte, the
    layout of the specification. *)
Lemma encode_wire (v : Z) (ins : list txin) (outs : list txout) (l : Z) :
  packable v ins outs l -> encode v ins outs l = Ok (wire v ins outs l).
Proof.
  intros (Hv & Hni & Hi & Hno & Ho & Hl). unfold u32 in Hv, Hl.
  unfold encode, wire.
  rewrite pack_fits by exact Hv. cbn [rbind].
  rewrite varlenEncode_compact by exact Hni. cbn [rbind].
  rewrite write_inputs_acc, write_inputs_wire by exact Hi. cbn [rbind].
  rewrite varlenEncode_compact by exact Hno. cbn [rbind].
  rewrite write_outputs_acc, write_outputs_wire by exact Ho. cbn [rbind].
  rewrite pack_fits by exact Hl. cbn [rbind width].
  f_equal; now rewrite <- ?app_assoc.
Qed.

(** The bytes [assemble] stores are always in the layout of the
    specification, for the fields it was given. *)
Lemma canonical_wire (B : bytes) :
  canonical B ->
  exists v ins outs l,
    packable v ins outs l /\ Forall hash32 ins /\ B = wire v ins outs l.
Proof.
  intros (t & t' & ins & Hi & Hh & Ha & Hd).
  destruct (assemble_Ok_fields _ _ Ha) as (v & ins' & outs & l & Hv & Hi' & Ho & Hl).
  rewrite Hi in Hi'. injection Hi' as <-.
  rewrite assemble_fields with (1 := Hv) (2 := Hi) (3 := Ho) (4 := Hl) in Ha.
  destruct (encode_cases v (items ins) outs l) as [[Hp (B' & He & _)] | [_ He]];
    rewrite He in Ha; [| discriminate].
  injection Ha as <-. cbn [data with_txid with_data] in Hd. injection Hd as ->.
  rewrite encode_wire in He by exact Hp. injection He as <-.
  now exists v, (items ins), outs, l.
Qed.



(** ** The assert of the default mode *)

(** With assert statements checked, [disassemble_under] is [disassemble]. *)
Lemma disassemble_under_checked (retExtra : bool) (t : Txn) :
  disassemble_under true retExtra t = disassemble retExtra t.
Proof. reflexivity. Qed.

(** With assert statements compiled away, the default mode returns as soon
    as the locktime is read. *)
Lemma disassemble_unchecked_default (t : Txn) d v ins outs d4 rc l :
  data t = Some d ->
  parse d = Ok (v, ins, outs, d4, rc) ->
  unpack fmt_L (upto 4 d4) = Ok l ->
  disassemble_under false false t
  = (with_locktime l
       (with_outputs outs (with_inputs (PyList ins) (with_version v t))),
     Ok None).
Proof.
  destruct t as [d0 h0 v0 i0 o0 l0]. cbn [data]. intros ->.
  unfold parse, disassemble_under, assert_when. run.
  destruct (unpack fmt_L (upto 4 d)) as [v1 |]; [| discriminate]. run.
  destruct (varlenDecode (from 4 d) 4) as [[[ic d1] rc1] |]; [| discriminate]. run.
  destruct (read_inputs (Z.to_nat ic) d1 rc1 []) as [[[ins1 d2] rc2] |];
    [| discriminate]. run.
  destruct (varlenDecode d2 rc2) as [[[oc d3] rc3] |]; [| discriminate]. run.
  destruct (read_outputs (Z.to_nat oc) d3 rc3 []) as [[[outs1 d4'] rc4] |];
    [| discriminate]. run.
  intros H. injection H as -> -> -> -> ->. intros ->. reflexivity.
Qed.

(** C4, as stated, fails: on the ten-byte transaction followed by the byte
    aa the default [disassemble] raises AssertionError, the failure of the
    bare assert statement on line 102 and not an exception that reports an
    error; with assert statements compiled away the same call returns
    [None] and the byte is accepted. *)
Lemma trailing_data_not_reported :
  let t := fst (construct (Some (Tests.d ++ [xaa]))) in
  snd (disassemble false t) = Raise AssertionError
  /\ ~ reported_error (snd (disassemble false t))
  /\ snd (disassemble_under false false t) = Ok None
  /\ ~ reported_error (snd (disassemble_under false false t)).
Proof.
  cbv zeta.
  assert (H1 : snd (disassemble false (fst (construct (Some (Tests.d ++ [xaa])))))
               = Raise AssertionError) by (vm_compute; reflexivity).
  assert (H2 : snd (disassemble_under false false
                      (fst (construct (Some (Tests.d ++ [xaa])))))
               = Ok None) by (vm_compute; reflexivity).
  rewrite H1, H2. repeat split.
  - intros (e & He & Hne). injection He as <-. now apply Hne.
  - intros (e & He & _). discriminate He.
Qed.

(** C4, amended: when [B] is a complete transaction and [extra] is not
    empty, the default [disassemble] of [B ++ extra] first assigns version,
    inputs, outputs and locktime, the values it would store for [B] alone,
    and then raises AssertionError from the assert statement on line 102;
    under an interpreter that compiles assert statements away it returns
    [None] with the same fields assigned. *)
Theorem trailing_data_rejected (B extra : bytes) (t : Txn) :
  decodes B ->
  extra <> [] ->
  data t = Some (B ++ extra) ->
  exists v ins outs l,
    (forall t0, data t0 = Some B ->
       disassemble false t0
       = (with_locktime l
            (with_outputs outs (with_inputs (PyList ins) (with_version v t0))),
          Ok None))
    /\ disassemble false t
       = (with_locktime l
            (with_outputs outs (with_inputs (PyList ins) (with_version v t))),
          Raise AssertionError)
    /\ disassemble_under false false t
       = (with_locktime l
            (with_outputs outs (with_inputs (PyList ins) (with_version v t))),
          Ok None).
Proof.
  intros (t0 & t0' & Hd0 & Hdis) Hne Hd.
  destruct (parse B) as [[[[[v ins] outs] d4] rc] | e] eqn:Hp.
  2:{ destruct (disassemble_parse_Raise false t0 B e Hd0 Hp) as (t' & Ht' & _).
      congruence. }
  rewrite disassemble_parse_Ok with (1 := Hd0) (2 := Hp) in Hdis.
  unfold finish in Hdis.
  destruct (unpack fmt_L (upto 4 d4)) as [l |] eqn:Hu; [| discriminate].
  destruct (Nat.eqb (length d4) 4) eqn:Hlen; [| discriminate].
  pose proof Hlen as Hlen'. apply Nat.eqb_eq in Hlen'.
  assert (Hd4 : d4 <> []) by (destruct d4; [discriminate | congruence]).
  pose proof (parse_app _ extra _ _ _ _ _ Hp Hd4) as Hp'.
  assert (Hu' : unpack fmt_L (upto 4 (d4 ++ extra)) = Ok l)
    by (rewrite upto_app_within by lia; exact Hu).
  exists v, ins, outs, l. split; [| split].
  - intros t1 Hd1. rewrite disassemble_parse_Ok with (1 := Hd1) (2 := Hp).
    unfold finish. now rewrite Hu, Hlen.
  - rewrite disassemble_parse_Ok with (1 := Hd) (2 := Hp').
    unfold finish. rewrite Hu'.
    replace (Nat.eqb (length (d4 ++ extra)) 4) with false; [reflexivity |].
    symmetry. apply Nat.eqb_neq. rewrite length_app.
    destruct extra; [congruence | simpl; lia].
  - apply disassemble_unchecked_default with (1 := Hd) (2 := Hp') (3 := Hu').
Qed.

(** The ten-byte transaction followed by the byte aa. *)
Lemma trailing_data_rejected_witness :
  let t := fst (construct (Some (Tests.d ++ [xaa]))) in
  exists v ins outs l,
    (forall t0, data t0 = Some Tests.d ->
       disassemble false t0
       = (with_locktime l
            (with_outputs outs (with_inputs (PyList ins) (with_version v t0))),
          Ok None))
    /\ disassemble false t
       = (with_locktime l
            (with_outputs outs (with_inputs (PyList ins) (with_version v t))),
          Raise AssertionError)
    /\ disassemble_under false false t
       = (with_locktime l
            (with_outputs outs (with_inputs (PyList ins) (with_version v t))),
          Ok None).
Proof.
  cbv zeta. apply (trailing_data_rejected Tests.d [xaa]).
  - exists (fst (construct (Some Tests.d))),
      (fst (disassemble false (fst (construct (Some Tests.d))))).
    split; vm_compute; reflexivity.
  - discriminate.
  - vm_compute. reflexivity.
Defined.

(** ** The object a failing [disassemble] leaves *)




(** A [disassemble] that raises before the outputs are read, step by
    step. *)
Lemma disassemble_Raise_stages (retExtra : bool) (t : Txn) (d : bytes) (e : exn) :
  data t = Some d ->
  parse d = Raise e ->
  (unpack fmt_L (upto 4 d) = Raise e
   /\ disassemble retExtra t = (t, Raise e))
  \/ (exists v,
        unpack fmt_L (upto 4 d) = Ok v /\ read_to_inputs d = Raise e
        /\ disassemble retExtra t = (with_version v t, Raise e))
  \/ (exists v ins d2 rc2,
        read_to_inputs d = Ok (v, ins, d2, rc2)
        /\ disassemble retExtra t
           = (with_inputs (PyList ins) (with_version v t), Raise e)).
Proof.
  destruct t as [d0 h0 v0 i0 o0 l0]. cbn [data]. intros ->.
  unfold parse, read_to_inputs, disassemble. run.
  destruct (unpack fmt_L (upto 4 d)) as [v1 |]; run.
  2:{ intros H. injection H as <-. left. auto. }
  destruct (varlenDecode (from 4 d) 4) as [[[ic d1] rc1] |]; run.
  2:{ intros H. injection H as <-. right. left. exists v1. auto. }
  destruct (read_inputs (Z.to_nat ic) d1 rc1 []) as [[[ins1 d2] rc2] |]; run.
  2:{ intros H. injection H as <-. right. left. exists v1. auto. }
  destruct (varlenDecode d2 rc2) as [[[oc d3] rc3] |]; run.
  2:{ intros H. injection H as <-. right. right.
      exists v1, ins1, d2, rc2. auto. }
  destruct (read_outputs (Z.to_nat oc) d3 rc3 []) as [[[outs1 d4'] rc4] |]; run.
  2:{ intros H. injection H as <-. right. right.
      exists v1, ins1, d2, rc2. auto. }
  discriminate.
Qed.

(** C5, amended: when [disassemble] raises, the raw bytes and the hash are
    the ones it started with, and the object is the one it started with
    updated by the assignments made before the failing step, each with the
    value read from the buffer: nothing when the raw bytes are missing or
    the version cannot be read; the version when the inputs cannot be read;
    the version and the inputs when the outputs cannot be read; these and
    the outputs when the locktime cannot be read; all four when an assert
    fails. *)
Theorem disassemble_failure_state (retExtra : bool) (t t' : Txn) (e : exn) :
  disassemble retExtra t = (t', Raise e) ->
  data t' = data t /\ txid t' = txid t
  /\ ((data t = None /\ e = AttributeError /\ t' = t)
      \/ (exists d,
            data t = Some d /\ unpack fmt_L (upto 4 d) = Raise e /\ t' = t)
      \/ (exists d v,
            data t = Some d
            /\ unpack fmt_L (upto 4 d) = Ok v
            /\ read_to_inputs d = Raise e
            /\ t' = with_version v t)
      \/ (exists d v ins d2 rc2,
            data t = Some d
            /\ read_to_inputs d = Ok (v, ins, d2, rc2)
            /\ parse d = Raise e
            /\ t' = with_inputs (PyList ins) (with_version v t))
      \/ (exists d v ins outs d4 rc,
            data t = Some d
            /\ parse d = Ok (v, ins, outs, d4, rc)
            /\ unpack fmt_L (upto 4 d4) = Raise e
            /\ t' = with_outputs outs
                      (with_inputs (PyList ins) (with_version v t)))
      \/ (exists d v ins outs d4 rc l,
            data t = Some d
            /\ parse d = Ok (v, ins, outs, d4, rc)
            /\ unpack fmt_L (upto 4 d4) = Ok l
            /\ e = AssertionError
            /\ t' = with_locktime l
                      (with_outputs outs
                         (with_inputs (PyList ins) (with_version v t))))).
Proof.
  intros H. destruct (data t) as [d |] eqn:Hd.
  2:{ rewrite disassemble_no_data in H by assumption.
      injection H as <- <-. rewrite ?Hd.
      split; [reflexivity |]. split; [reflexivity |]. left. auto. }
  destruct (parse d) as [[[[[v ins] outs] d4] rc] | e1] eqn:Hp.
  - rewrite disassemble_parse_Ok with (1 := Hd) (2 := Hp) in H.
    unfold finish in H.
    destruct (unpack fmt_L (upto 4 d4)) as [l |] eqn:Hu.
    + assert (Hcase : t' = with_locktime l
                (with_outputs outs (with_inputs (PyList ins) (with_version v t)))
              /\ e = AssertionError).
      { destruct retExtra.
        - destruct (bytes_eqb d4 (from rc d)); [discriminate |].
          injection H as <- <-. auto.
        - destruct (Nat.eqb (length d4) 4); [discriminate |].
          injection H as <- <-. auto. }
      destruct Hcase as [-> ->].
      cbn [data txid with_locktime with_outputs with_inputs with_version].
      rewrite Hd. repeat split.
      do 5 right. exists d, v, ins, outs, d4, rc, l. auto.
    + injection H as <- <-.
      cbn [data txid with_outputs with_inputs with_version].
      rewrite Hd. repeat split.
      do 4 right. left. exists d, v, ins, outs, d4, rc. auto.
  - destruct (disassemble_Raise_stages retExtra t d e1 Hd Hp)
      as [(Hu & Ht) | [(v & Hu & Hr & Ht) | (v & ins & d2 & rc2 & Hr & Ht)]];
      rewrite Ht in H; injection H as <- <-;
      cbn [data txid with_inputs with_version]; rewrite ?Hd; repeat split.
    + right. left. exists d. auto.
    + do 2 right. left. exists d, v. auto.
    + do 3 right. left. exists d, v, ins, d2, rc2. auto.
Qed.

(** The failing decode of the four bytes 01 00 00 00: the version is read
    as 1, the input count cannot be read. *)
Lemma disassemble_failure_state_witness :
  let t := fst (construct (Some [x01; x00; x00; x00])) in
  let t' := with_version 1 t in
  data t' = data t /\ txid t' = txid t
  /\ ((data t = None /\ IndexError = AttributeError /\ t' = t)
      \/ (exists d,
            data t = Some d /\ unpack fmt_L (upto 4 d) = Raise IndexError
            /\ t' = t)
      \/ (exists d v,
            data t = Some d
            /\ unpack fmt_L (upto 4 d) = Ok v
            /\ read_to_inputs d = Raise IndexError
            /\ t' = with_version v t)
      \/ (exists d v ins d2 rc2,
            data t = Some d
            /\ read_to_inputs d = Ok (v, ins, d2, rc2)
            /\ parse d = Raise IndexError
            /\ t' = with_inputs (PyList ins) (with_version v t))
      \/ (exists d v ins outs d4 rc,
            data t = Some d
            /\ parse d = Ok (v, ins, outs, d4, rc)
            /\ unpack fmt_L (upto 4 d4) = Raise IndexError
            /\ t' = with_outputs outs
                      (with_inputs (PyList ins) (with_version v t)))
      \/ (exists d v ins outs d4 rc l,
            data t = Some d
            /\ parse d = Ok (v, ins, outs, d4, rc)
            /\ unpack fmt_L (upto 4 d4) = Ok l
            /\ IndexError = AssertionError
            /\ t' = with_locktime l
                      (with_outputs outs
                         (with_inputs (PyList ins) (with_version v t))))).
Proof.
  cbv zeta.
  apply (disassemble_failure_state false
           (fst (construct (Some [x01; x00; x00; x00])))).
  vm_compute. reflexivity.
Defined.

(** ** A buffer cut short *)





